(** * Strong / weak classification of Raman spectra (analyze_spectra.py)

    A shallow embedding of the three classifiers of the notebook script
    and of its temporal aggregation of the weak spectra, with the
    properties of the specification stated and proved over it.

    Conventions of the embedding.
    - A float64 is modelled by a rational ([Q]) with exact arithmetic:
      rounding, infinities and NaN in the data are outside the model.
      [==] on floats is [Qeq_bool]. NaN only arises as the quantile of an
      empty column or the mean of an empty row, and is modelled by [None].
    - A Python exception aborts the computation: fallible steps return
      [option], [None] standing for the raised exception.
    - A numpy 2-D array and the data of a DataFrame are lists of rows;
      the DataFrame index is the RangeIndex [0 .. N-1], so a row label is
      its position. Column labels are taken to be distinct, so that
      [df[label]] is the column at the position of the label.
    - A [pd.Timestamp] is the integer number of nanoseconds since the
      epoch ([Z]); NaT is [None]. The strings of the DateTime column are
      taken as parsed by [pd.to_datetime].
    - The library functions the script calls (numpy, pandas, skimage) are
      modelled after their documented behaviour, in the modules [Np],
      [Pd] and [Skimage]. *)

From Stdlib Require Import QArith Qround Qminmax Lqa ZArith Lia String Ascii Sorted.
From stdpp Require Import base option list gmap sets.

Local Open Scope Q_scope.

(** ** numpy *)

Module Np.

Definition Qltb (x y : Q) : bool := negb (Qle_bool y x).

(** [max] of two floats as [np.maximum] takes it. *)
Definition maximum (x y : Q) : Q := if Qle_bool x y then y else x.
Definition minimum (x y : Q) : Q := if Qle_bool y x then y else x.

(** [np.max] over one row; a zero-size row raises ValueError. *)
Definition max (row : list Q) : option Q :=
  match row with
  | [] => None
  | x :: xs => Some (fold_left maximum xs x)
  end.

Definition min (row : list Q) : option Q :=
  match row with
  | [] => None
  | x :: xs => Some (fold_left minimum xs x)
  end.

(** [np.max(a, axis=1)]. *)
Definition max_axis1 (a : list (list Q)) : option (list Q) := mapM max a.

(** [np.cumsum], normalising each partial sum. *)
Fixpoint cumsum_from (acc : Q) (l : list Q) : list Q :=
  match l with
  | [] => []
  | x :: xs => let s := Qred (acc + x) in s :: cumsum_from s xs
  end.
Definition cumsum (l : list Q) : list Q := cumsum_from 0 l.

(** [np.argmax]: the first position of the largest entry. *)
Fixpoint argmax_from (i best : nat) (bestv : Q) (l : list Q) : nat :=
  match l with
  | [] => best
  | x :: xs =>
      if Qltb bestv x then argmax_from (S i) i x xs
      else argmax_from (S i) best bestv xs
  end.
Definition argmax (l : list Q) : nat :=
  match l with
  | [] => O
  | x :: xs => argmax_from 1 0 x xs
  end.

(** [np.histogram(a, bins, range=(lo, hi))] for [lo < hi]: the bin of a
    value, the last bin being closed on the right. *)
Definition bin_of (bins : nat) (lo hi x : Q) : nat :=
  if Qeq_bool x hi then pred bins
  else Z.to_nat (Qfloor ((x - lo) / (hi - lo) * inject_Z (Z.of_nat bins))).

Definition bin_edge (bins : nat) (lo hi : Q) (k : nat) : Q :=
  lo + inject_Z (Z.of_nat k) * ((hi - lo) / inject_Z (Z.of_nat bins)).

Definition histogram_counts (bins : nat) (lo hi : Q) (a : list Q) : list Q :=
  map (fun k => inject_Z (Z.of_nat
         (length (List.filter (fun x => Nat.eqb (bin_of bins lo hi x) k) a))))
      (seq 0 bins).

(** [np.isin(x, test_elements)] for one element, on a flattened array. *)
Definition isin {A} (eqb : A -> A -> bool) (x : A) (test : list A) : bool :=
  existsb (eqb x) test.

End Np.

(** ** skimage.filters.threshold_otsu

    The library function the script calls, on a 1-D float array, with the
    default 256 bins: for an array with a single value, that value is
    returned (scikit-image 0.18 and later; the script's annotations need
    Python 3.9, which earlier releases do not support); otherwise the
    histogram over [min, max] is taken and the centre of the bin
    maximising the between-class variance [weight1 * weight2 *
    (mean1 - mean2)^2] is returned. Indexing the first pixel of an empty
    array raises IndexError. *)

Module Skimage.

Definition nbins : nat := 256.

Definition bin_centers (lo hi : Q) : list Q :=
  map (fun k => Qred ((Np.bin_edge nbins lo hi k + Np.bin_edge nbins lo hi (S k)) / 2))
      (seq 0 nbins).

Definition variance12 (counts centers : list Q) : list Q :=
  let weight1 := Np.cumsum counts in
  let weight2 := rev (Np.cumsum (rev counts)) in
  let cc := zip_with Qmult counts centers in
  let mean1 := zip_with Qdiv (Np.cumsum cc) weight1 in
  let mean2 := rev (zip_with Qdiv (Np.cumsum (rev cc)) (rev weight2)) in
  zip_with (fun wm1 wm2 =>
              Qred (fst wm1 * fst wm2 * ((snd wm1 - snd wm2) * (snd wm1 - snd wm2))))
           (zip (removelast weight1) (removelast mean1))
           (zip (tail weight2) (tail mean2)).

Definition threshold_otsu (image : list Q) : option Q :=
  match image with
  | [] => None
  | first_pixel :: _ =>
      if forallb (fun x => Qeq_bool x first_pixel) image then Some first_pixel
      else
        lo ← Np.min image;
        hi ← Np.max image;
        let counts := Np.histogram_counts nbins lo hi image in
        let centers := bin_centers lo hi in
        let idx := Np.argmax (variance12 counts centers) in
        centers !! idx
  end.

End Skimage.

(** ** Approach 1: relaxed Otsu threshold on the peak intensities *)

(** The script's factor 0.715. *)
Definition relax_factor : Q := 143 # 200.

(** The loop of lines 229-238: [enumerate(peak_intensities)], appending
    the position to [strong_spectra] or to [weak_spectra]. *)
Fixpoint classify_from (i : nat) (peaks : list Q) (threshold_relaxed : Q)
    (strong_spectra weak_spectra : list nat) : list nat * list nat :=
  match peaks with
  | [] => (strong_spectra, weak_spectra)
  | intensity :: rest =>
      if Qle_bool threshold_relaxed intensity
      then classify_from (S i) rest threshold_relaxed (strong_spectra ++ [i]) weak_spectra
      else classify_from (S i) rest threshold_relaxed strong_spectra (weak_spectra ++ [i])
  end.

(** Lines 173-238 with the relax factor [r] in place of 0.715. *)
Definition threshold_classifier (r : Q) (intensities : list (list Q))
    : option (list nat * list nat) :=
  peak_intensities ← Np.max_axis1 intensities;
  threshold ← Skimage.threshold_otsu peak_intensities;
  let threshold_relaxed := threshold * r in
  Some (classify_from 0 peak_intensities threshold_relaxed [] []).

Definition approach1 (intensities : list (list Q)) : option (list nat * list nat) :=
  threshold_classifier relax_factor intensities.

(** ** pandas *)

(** A cell of a DataFrame: a string of the header columns or a float. *)
Inductive cell : Type :=
  | Str (s : string)
  | Num (x : Q).

Definition cell_eqb (a b : cell) : bool :=
  match a, b with
  | Str s, Str t => String.eqb s t
  | Num x, Num y => Qeq_bool x y
  | _, _ => false
  end.

(** Column labels and the rows; the index is [0 .. N-1]. *)
Record DataFrame : Type := mkDataFrame {
  columns : list cell;
  values : list (list cell)
}.

Module Pd.

(** [pd.concat([pd.DataFrame(a, columns=la), pd.DataFrame(b, columns=lb)], axis=1)]
    for two blocks with the same number of rows. *)
Definition concat_axis1 (la : list string) (a : list (list string))
    (lb : list Q) (b : list (list Q)) : DataFrame :=
  {| columns := map Str la ++ map Num lb;
     values := zip_with (fun h r => map Str h ++ map Num r) a b |}.

(** [df.iloc[:, k:]]. *)
Definition iloc_cols_from (k : nat) (df : DataFrame) : DataFrame :=
  {| columns := drop k (columns df); values := map (drop k) (values df) |}.

(** [len(df)]. *)
Definition len (df : DataFrame) : nat := length (values df).

(** The column at position [j] as a float Series; arithmetic on a column
    holding strings raises TypeError. *)
Definition float_column (j : nat) (df : DataFrame) : option (list Q) :=
  mapM (fun row => match row !! j with Some (Num x) => Some x | _ => None end)
       (values df).

(** Ascending sort of the values of a Series. *)
Fixpoint insert_sorted (x : Q) (l : list Q) : list Q :=
  match l with
  | [] => [x]
  | y :: ys => if Qle_bool x y then x :: l else y :: insert_sorted x ys
  end.
Definition sort_values (l : list Q) : list Q := foldr insert_sorted [] l.

(** [Series.quantile(q)] with the default linear interpolation, for
    [0 <= q <= 1]; NaN ([None]) on an empty Series. *)
Definition quantile (s : list Q) (q : Q) : option Q :=
  match sort_values s with
  | [] => None
  | (x0 :: _) as sorted =>
      let h := inject_Z (Z.of_nat (length s) - 1) * q in
      let i := Z.to_nat (Qfloor h) in
      let g := h - inject_Z (Qfloor h) in
      let a := nth i sorted x0 in
      let b := nth (Nat.min (S i) (length s - 1)) sorted x0 in
      Some (a + (b - a) * g)
  end.

(** [df[mask].index] for a boolean array [mask]. *)
Definition boolean_index (mask : list bool) : list nat :=
  List.filter (fun i => nth i mask false) (seq 0 (length mask)).

(** [df[df.index.isin(s)].index] and [df[~df.index.isin(s)].index]. *)
Definition index_isin (n : nat) (s : gset nat) : list nat :=
  List.filter (fun i => bool_decide (i ∈ s)) (seq 0 n).
Definition index_not_isin (n : nat) (s : gset nat) : list nat :=
  List.filter (fun i => negb (bool_decide (i ∈ s))) (seq 0 n).

(** [Series.dt.floor('10Min')] on nanoseconds since the epoch. *)
Definition ten_minutes : Z := 600000000000.
Definition floor_10min (t : Z) : Z := (t - t mod ten_minutes)%Z.

(** [Series.value_counts()]: NaT is dropped, every distinct value is
    counted, and the result is ordered by decreasing count. *)
Fixpoint count_value (k : Z) (acc : list (Z * nat)) : list (Z * nat) :=
  match acc with
  | [] => [(k, 1%nat)]
  | (k', c) :: rest =>
      if Z.eqb k k' then (k', S c) :: rest else (k', c) :: count_value k rest
  end.

Definition tally (s : list (option Z)) : list (Z * nat) :=
  fold_left (fun acc o => match o with Some k => count_value k acc | None => acc end)
            s [].

Fixpoint insert_by {A} (leb : A -> A -> bool) (x : A) (l : list A) : list A :=
  match l with
  | [] => [x]
  | y :: ys => if leb x y then x :: l else y :: insert_by leb x ys
  end.
Definition sort_by {A} (leb : A -> A -> bool) (l : list A) : list A :=
  foldr (insert_by leb) [] l.

Definition value_counts (s : list (option Z)) : list (Z * nat) :=
  sort_by (fun a b => Nat.leb (snd b) (snd a)) (tally s).

(** [Series.sort_index()] of a Series keyed by timestamps. *)
Definition sort_index (s : list (Z * nat)) : list (Z * nat) :=
  sort_by (fun a b => Z.leb (fst a) (fst b)) s.

(** [np.mean(df.loc[rows, wave_num], axis=1)] for one row: the mean of
    the cells (NaN, [None], when there is none); a string raises. *)
Definition row_mean (row : list cell) : option (option Q) :=
  xs ← mapM (fun c => match c with Num x => Some x | Str _ => None end) row;
  Some (match xs with
        | [] => None
        | _ => Some (fold_left Qplus xs 0 / inject_Z (Z.of_nat (length xs)))
        end).

End Pd.

(** ** The tables of the script *)

(** What [readcsv(file, header=True)] returns. *)
Record csv : Type := mkCsv {
  header_labels : list string;
  header_columns : list (list string);
  wavenumbers : list Q;
  intensities : list (list Q)
}.

(** [readcsv] fills [nMeasurements] rows in both blocks, one label per column. *)
Definition well_formed (d : csv) : Prop :=
  length (header_columns d) = length (intensities d) /\
  Forall (fun h => length h = length (header_labels d)) (header_columns d) /\
  Forall (fun r => length r = length (wavenumbers d)) (intensities d).

(** Lines 143-150 and 572-579: [measurement_df] and [media_df]. *)
Definition dataframe_of (d : csv) : DataFrame :=
  Pd.concat_axis1 (header_labels d) (header_columns d) (wavenumbers d) (intensities d).

(** ** Approach 2: per-wavenumber IQR fences *)

(** [wave_num = measurement_df.iloc[:, 10:].columns], as column positions. *)
Definition wave_num (measurement_df : DataFrame) : list nat :=
  seq 10 (length (columns measurement_df) - 10).

(** [lower_bound] and [upper_bound] of one column; both NaN on no rows. *)
Definition bounds (k_lo k_hi : Q) (col : list Q) : option (Q * Q) :=
  q1 ← Pd.quantile col (1 # 4);
  q3 ← Pd.quantile col (3 # 4);
  let iqr := q3 - q1 in
  Some (q1 - k_lo * iqr, q3 + k_hi * iqr).

(** Line 381: some row lies strictly beyond a bound. *)
Definition has_outlier (k_lo k_hi : Q) (col : list Q) : bool :=
  match bounds k_lo k_hi col with
  | Some (lower_bound, upper_bound) =>
      existsb (fun x => Np.Qltb x lower_bound || Np.Qltb upper_bound x) col
  | None => false
  end.

(** Lines 373-382: the wavenumbers having outliers. *)
Fixpoint outlier_loop (k_lo k_hi : Q) (df : DataFrame) (waves : list nat)
    (outlier : list nat) : option (list nat) :=
  match waves with
  | [] => Some outlier
  | wave :: rest =>
      col ← Pd.float_column wave df;
      if has_outlier k_lo k_hi col
      then outlier_loop k_lo k_hi df rest (outlier ++ [wave])
      else outlier_loop k_lo k_hi df rest outlier
  end.

Definition outlier (k_lo k_hi : Q) (measurement_df : DataFrame) : option (list nat) :=
  outlier_loop k_lo k_hi measurement_df (wave_num measurement_df) [].

(** Line 398: the index of the rows at or beyond a bound. *)
Definition filtered_index (k_lo k_hi : Q) (col : list Q) : list nat :=
  match bounds k_lo k_hi col with
  | Some (lower_bound, upper_bound) =>
      Pd.boolean_index
        (map (fun x => Qle_bool x lower_bound || Qle_bool upper_bound x) col)
  | None => []
  end.

(** Lines 389-402: [strong_spectra_approach2], extended column by column. *)
Fixpoint strong_loop (k_lo k_hi : Q) (df : DataFrame) (outlier : list nat)
    (strong_spectra_approach2 : list nat) : option (list nat) :=
  match outlier with
  | [] => Some strong_spectra_approach2
  | col :: rest =>
      s ← Pd.float_column col df;
      strong_loop k_lo k_hi df rest
        (strong_spectra_approach2 ++ filtered_index k_lo k_hi s)
  end.

Definition strong_spectra_approach2 (k_lo k_hi : Q) (measurement_df : DataFrame)
    : option (list nat) :=
  cols ← outlier k_lo k_hi measurement_df;
  strong_loop k_lo k_hi measurement_df cols [].

(** Lines 408 and 438: the index of [measurement_strong] and of
    [measurement_weak] before [reset_index]. *)
Definition outlier_classifier (k_lo k_hi : Q) (measurement_df : DataFrame)
    : option (list nat * list nat) :=
  strong ← strong_spectra_approach2 k_lo k_hi measurement_df;
  let s : gset nat := list_to_set strong in
  Some (Pd.index_isin (Pd.len measurement_df) s,
        Pd.index_not_isin (Pd.len measurement_df) s).

(** The script's multipliers: 5 below, 4 above. *)
Definition approach2 (measurement_df : DataFrame) : option (list nat * list nat) :=
  outlier_classifier 5 4 measurement_df.

(** ** Approach 3: matching against the media intensities *)

(** [np.logical_not(np.isin(measurement, media).all(axis=1))] on two arrays
    of any shapes: per measurement row, whether some value of the row is
    absent from the flattened media values. *)
Definition not_matching (measurement media : list (list cell)) : list bool :=
  map (fun row => negb (forallb (fun v => Np.isin cell_eqb v (concat media)) row))
      measurement.

(** The classifier on a measurement matrix and a reference matrix: the
    index of the rows under the mask (strong) and of the others (weak). *)
Definition reference_match (measurement media : list (list cell))
    : list nat * list nat :=
  (Pd.boolean_index (not_matching measurement media),
   Pd.boolean_index (map negb (not_matching measurement media))).

(** Line 591. *)
Definition media_intensities (media_df : DataFrame) : list (list cell) :=
  values (Pd.iloc_cols_from 11 media_df).

(** Line 594. *)
Definition mask (measurement_df media_df : DataFrame) : list bool :=
  not_matching (values (Pd.iloc_cols_from 11 measurement_df))
               (media_intensities media_df).

(** Lines 597-600: the index of [strong_filtered_measurement_df] and
    [non_matching_indexes]. *)
Definition non_matching_indexes (measurement_df media_df : DataFrame) : list nat :=
  Pd.boolean_index (map negb (mask measurement_df media_df)).

Definition approach3 (measurement_df media_df : DataFrame) : option (list nat * list nat) :=
  Some (Pd.boolean_index (mask measurement_df media_df),
        non_matching_indexes measurement_df media_df).

(** ** Analysis 2: temporal distribution of the weak spectra

    [DateTime] is the column [pd.to_datetime(measurement_df['DateTime'])],
    one timestamp per row of [measurement_df]. A Series is the list of its
    (index label, value) pairs. *)

(** [s.loc[idx]] of a column given by its values. *)
Definition take_rows {A} (col : list A) (idx : list nat) : list (nat * A) :=
  omap (fun i => pair i <$> col !! i) idx.

(** Alignment of a Series on the label [j] in an assignment
    [frame[name] = series]: NaT where the label is missing. *)
Definition aligned (s : list (nat * Z)) (j : nat) : option Z :=
  snd <$> List.find (fun p => Nat.eqb (fst p) j) s.

(** Lines 316-326 and 475-485: [count_by_period] with [interval_start] and
    [interval_end], from the column of timestamps. *)
Definition count_by_period (times : list (option Z)) : list (Z * nat) :=
  Pd.sort_index (Pd.value_counts (map (fmap Pd.floor_10min) times)).

Definition intervals (count_by_period : list (Z * nat)) : list (Z * Z * nat) :=
  map (fun sc => (fst sc, (fst sc + Pd.ten_minutes)%Z, snd sc)) count_by_period.

(** Lines 312-313: [df['DateTime']], the rows outside [strong_spectra]. *)
Definition df_DateTime (DateTime : list Z) (strong_spectra : list nat) : list (nat * Z) :=
  take_rows DateTime
    (Pd.index_not_isin (length DateTime) (list_to_set strong_spectra)).

(** Lines 312-326, after approach 1. *)
Definition weak_buckets_1 (DateTime : list Z) (strong_spectra : list nat)
    : list (Z * Z * nat) :=
  intervals (count_by_period (map (fun p => Some (snd p))
                                  (df_DateTime DateTime strong_spectra))).

(** Lines 348-351: the pairs plotted, (timestamp, mean intensity), in row
    order. *)
Definition mean_intensity (measurement_df : DataFrame) (idx : list nat)
    : option (list (option Q)) :=
  mapM (fun i => row ← values measurement_df !! i; Pd.row_mean (drop 10 row)) idx.

Definition weak_trend_1 (measurement_df : DataFrame) (DateTime : list Z)
    (strong_spectra : list nat) : option (list (Z * option Q)) :=
  let df := df_DateTime DateTime strong_spectra in
  means ← mean_intensity measurement_df (map fst df);
  Some (zip (map snd df) means).

(** Line 472: [measurement_weak['DateTime'] = pd.to_datetime(df['DateTime'])],
    where [measurement_weak] has the fresh index [0 .. K-1] of [reset_index]
    and [df] is still the frame of lines 312-313. *)
Definition measurement_weak_DateTime (DateTime : list Z)
    (strong_spectra strong_spectra_approach2 : list nat) : list (option Z) :=
  let measurement_weak :=
    Pd.index_not_isin (length DateTime) (list_to_set strong_spectra_approach2) in
  map (aligned (df_DateTime DateTime strong_spectra))
      (seq 0 (length measurement_weak)).

(** Lines 472-485, after approach 2. *)
Definition weak_buckets_2 (DateTime : list Z)
    (strong_spectra strong_spectra_approach2 : list nat) : list (Z * Z * nat) :=
  intervals (count_by_period
               (measurement_weak_DateTime DateTime strong_spectra strong_spectra_approach2)).

(** ** Reading the files

    [readcsv] and [is_float], lines 16-80. The file is the list of its
    lines; Python's [float] on a string is a parameter. *)

(** Python strings. *)
Module Str.

(** [s.replace(c, by)] for a one-character [c]. *)
Fixpoint replace (c : ascii) (by_ : string) (s : string) : string :=
  match s with
  | EmptyString => EmptyString
  | String a rest =>
      if Ascii.eqb a c then String.append by_ (replace c by_ rest)
      else String a (replace c by_ rest)
  end.

(** [s.split(sep)] after the first [skip] characters, [piece] being the
    part of the current piece already read. *)
Fixpoint split_from (sep : string) (skip : nat) (piece : string) (s : string)
    : list string :=
  match s with
  | EmptyString => [piece]
  | String a rest =>
      match skip with
      | S k => split_from sep k piece rest
      | O =>
          if String.prefix sep s
          then piece :: split_from sep (String.length sep - 1) EmptyString rest
          else split_from sep 0 (String.append piece (String a EmptyString)) rest
      end
  end.

(** [s.split(sep)]; an empty separator raises ValueError. *)
Definition split (sep s : string) : option (list string) :=
  match sep with
  | EmptyString => None
  | _ => Some (split_from sep 0 EmptyString s)
  end.

(** [label[5:] if label.startswith('META:') else label]. *)
Definition strip_meta (label : string) : string :=
  if String.prefix "META:" label
  then String.substring 5 (String.length label - 5) label
  else label.

End Str.

Section Readcsv.

(** Python's [float] on a string; [None] is ValueError. *)
Variable float : string -> option Q.

(** Lines 66-80. *)
Definition is_float (value : string) : bool :=
  match float value with
  | Some _ => true
  | None => false
  end.

(** [line.replace("'", "").replace(",", ".")]. *)
Definition unquote (line : string) : string :=
  Str.replace ","%char "." (Str.replace "'"%char "" line).

(** Line 40: [next((i for i, v in enumerate(headRowArray) if is_float(v)), 0)]. *)
Fixpoint first_float_from (i : nat) (headRowArray : list string) : option nat :=
  match headRowArray with
  | [] => None
  | v :: rest => if is_float v then Some i else first_float_from (S i) rest
  end.
Definition startcol_of (headRowArray : list string) : nat :=
  default 0%nat (first_float_from 0 headRowArray).

(** [intensities[i, :] = values] on a row of [nFeatures] zeros: numpy
    broadcasts a single value and refuses any other length mismatch. *)
Definition assign_row (nFeatures : nat) (vals : list Q) : option (list Q) :=
  if Nat.eqb (length vals) nFeatures then Some vals
  else match vals with
       | [x] => Some (repeat x nFeatures)
       | _ => None
       end.

(** Lines 54-57, one line of data. *)
Definition read_line (separator : string) (startcol nFeatures : nat) (line : string)
    : option (list string * list Q) :=
  elements ← Str.split separator (unquote line);
  let head := take startcol elements in
  if Nat.eqb (length head) startcol then
    vals ← mapM float (drop startcol elements);
    row ← assign_row nFeatures vals;
    Some (head, row)
  else None.

(** Lines 35-57: the file is the list of its lines; [readline] on an empty
    file gives the empty string. *)
Definition readcsv_header (file : list string) (separator : string) : option csv :=
  let headRow := unquote (hd EmptyString file) in
  headRowArray ← Str.split separator headRow;
  let startcol := startcol_of headRowArray in
  wavenumbers ← mapM float (drop startcol headRowArray);
  let headLabels := map Str.strip_meta (take startcol headRowArray) in
  rows ← mapM (read_line separator startcol (length wavenumbers)) (tl file);
  Some {| header_labels := headLabels;
          header_columns := map fst rows;
          wavenumbers := wavenumbers;
          intensities := map snd rows |}.

(** Lines 59-63: what is returned with and without [header]. *)
Inductive readcsv_result : Type :=
  | WithHeader (d : csv)
  | WithoutHeader (wavenumbers : list Q) (intensities : list (list Q)).

Definition readcsv (file : list string) (header : bool) (separator : string)
    : option readcsv_result :=
  d ← readcsv_header file separator;
  Some (if header then WithHeader d
        else WithoutHeader (wavenumbers d) (intensities d)).

End Readcsv.

(** A stand-in for [float] on plain decimal numerals such as [12] or
    [3.25], for the examples. *)
Fixpoint digits_value (acc : Z) (s : string) : option Z :=
  match s with
  | EmptyString => Some acc
  | String a rest =>
      let n := nat_of_ascii a in
      if (Nat.leb 48 n && Nat.leb n 57)%bool
      then digits_value (10 * acc + Z.of_nat (n - 48)) rest
      else None
  end.

Definition plain_decimal (s : string) : option Q :=
  match Str.split "." s with
  | Some [a] =>
      if String.eqb a "" then None else inject_Z <$> digits_value 0 a
  | Some [a; b] =>
      if (String.eqb a "" || String.eqb b "")%bool then None
      else
        x ← digits_value 0 a;
        y ← digits_value 0 b;
        Some (Qred (inject_Z x + inject_Z y / inject_Z (10 ^ Z.of_nat (String.length b))))
  | _ => None
  end.

(** The character [c] occurs in [s]. *)
Fixpoint has_char (c : ascii) (s : string) : bool :=
  match s with
  | EmptyString => false
  | String a rest => Ascii.eqb a c || has_char c rest
  end.


(** The count recorded for the key [k] in a tally. *)
Definition count_of (k : Z) (l : list (Z * nat)) : nat :=
  sum_list_with (fun kc => if Z.eqb kc.1 k then kc.2 else 0%nat) l.

(** The number of timestamps of a column that floor to [k]. *)
Definition occurrences (k : Z) (s : list (option Z)) : nat :=
  length (List.filter (fun o => match o with
                                | Some t => Z.eqb t k
                                | None => false
                                end) s).


(** ** Tables for the examples

    A table with ten header columns, the wavenumbers [waves] and the rows
    [rows] of intensities; [one_wavenumber xs] has the single wavenumber
    100, so that its column at position 10 is [xs]. *)
Definition ten_headers (waves : list Q) (rows : list (list Q)) : csv :=
  {| header_labels := repeat "META"%string 10;
     header_columns := map (fun _ => repeat "m"%string 10) rows;
     wavenumbers := waves;
     intensities := rows |}.

Definition one_wavenumber (xs : list Q) : csv :=
  ten_headers [100] (map (fun x => [x]) xs).

(** ** The properties, in the words of the specification *)

(** A Partition of the index set [{0, ..., n-1}]. *)
Definition is_partition (n : nat) (p : list nat * list nat) : Prop :=
  (list_to_set p.1 : gset nat) ∪ list_to_set p.2 = set_seq 0 n /\
  (list_to_set p.1 : gset nat) ## list_to_set p.2.

(** [p] is the peak intensity of [row]: its maximum. *)
Definition peak_of (row : list Q) (p : Q) : Prop :=
  p ∈ row /\ forall x, x ∈ row -> x <= p.

(** [{i : p_i >= t}] and [{i : p_i < t}]; the first is line 211,
    [np.where(peak_intensities >= threshold_relaxed)[0]]. *)
Definition strong_indices_relaxed (peaks : list Q) (t : Q) : list nat :=
  List.filter (fun i => Qle_bool t (nth i peaks 0)) (seq 0 (length peaks)).
Definition weak_indices_relaxed (peaks : list Q) (t : Q) : list nat :=
  List.filter (fun i => Np.Qltb (nth i peaks 0) t) (seq 0 (length peaks)).

(** The strong set in the words of the specification: the rows whose
    value lies outside the fences [lower_bound, upper_bound] of some
    wavenumber (such a wavenumber is then contributing). *)
Definition outside_fences (k_lo k_hi : Q) (col : list Q) (i : nat) : bool :=
  match bounds k_lo k_hi col, col !! i with
  | Some (lower_bound, upper_bound), Some x =>
      Np.Qltb x lower_bound || Np.Qltb upper_bound x
  | _, _ => false
  end.

Definition strong_by_fences (k_lo k_hi : Q) (measurement_df : DataFrame)
    : option (list nat) :=
  cols ← mapM (fun w => Pd.float_column w measurement_df) (wave_num measurement_df);
  Some (List.filter (fun i => existsb (fun col => outside_fences k_lo k_hi col i) cols)
                    (seq 0 (Pd.len measurement_df))).

(** Two tables that agree on their labels and on every cell except those
    at column position 10. *)
Definition same_but_column_10 (df df' : DataFrame) : Prop :=
  columns df = columns df' /\
  Forall2 (fun r r' => take 10 r = take 10 r' /\ drop 11 r = drop 11 r')
          (values df) (values df').

(** The buckets reported for a subset: each is the 10-minute interval
    [start, start + 10 min) of the epoch-aligned grid with a positive
    count, and an earlier bucket ends no later than a later one starts. *)
Definition well_spaced (buckets : list (Z * Z * nat)) : Prop :=
  Forall (fun b => (b.1.2 = b.1.1 + Pd.ten_minutes)%Z /\
                   (Pd.ten_minutes | b.1.1)%Z /\ (0 < b.2)%nat) buckets /\
  forall i j b b', (i < j)%nat -> buckets !! i = Some b -> buckets !! j = Some b' ->
                   (b.1.2 <= b'.1.1)%Z.

(** Contiguous buckets: each one ends where the next one starts. *)
Definition contiguous (buckets : list (Z * Z * nat)) : Prop :=
  forall i b b', buckets !! i = Some b -> buckets !! S i = Some b' -> b.1.2 = b'.1.1.

(** The sum of the per-bucket counts. *)
Definition total_count (buckets : list (Z * Z * nat)) : nat :=
  sum_list_with snd buckets.

(** Approach 2, wavenumber by wavenumber: the wavenumber at position [w]
    is contributing when some row lies strictly beyond a bound (line 381);
    row [i] is collected for it when its value is at or beyond a bound
    (line 398). *)
Definition contributing (k_lo k_hi : Q) (df : DataFrame) (w : nat) : Prop :=
  exists col, Pd.float_column w df = Some col /\ has_outlier k_lo k_hi col = true.

Definition collected (k_lo k_hi : Q) (df : DataFrame) (w i : nat) : Prop :=
  exists col, Pd.float_column w df = Some col /\ i ∈ filtered_index k_lo k_hi col.

(** The value [v] appears somewhere in the reference matrix. *)
Definition appears_in (media : list (list cell)) (v : cell) : Prop :=
  exists r w, r ∈ media /\ w ∈ r /\ cell_eqb v w = true.

(** The interpolated value at the fractional position [h] of a sorted
    list, as [Series.quantile] takes it. *)
Definition interpolate (sorted : list Q) (d h : Q) : Q :=
  let i := Z.to_nat (Qfloor h) in
  let a := nth i sorted d in
  let b := nth (Nat.min (S i) (length sorted - 1)) sorted d in
  a + (b - a) * (h - inject_Z (Qfloor h)).

(** A tally of distinct keys, all satisfying [P], with positive counts. *)
Definition tallied (P : Z -> Prop) (acc : list (Z * nat)) : Prop :=
  NoDup (map fst acc) /\ Forall (fun kc => P kc.1 /\ (0 < kc.2)%nat) acc.

(** * Proofs *)

(** ** Comparisons *)

Lemma Qltb_lt (x y : Q) : Np.Qltb x y = true <-> x < y.
Proof.
  unfold Np.Qltb. rewrite negb_true_iff, <- not_true_iff_false, Qle_bool_iff.
  split; [apply Qnot_le_lt | apply Qlt_not_le].
Qed.

Lemma Qltb_negb (x y : Q) : Np.Qltb x y = negb (Qle_bool y x).
Proof. reflexivity. Qed.

(** ** np.max *)

Lemma fold_maximum (xs : list Q) (x : Q) :
  let m := fold_left Np.maximum xs x in
  (m = x \/ m ∈ xs) /\ x <= m /\ forall y, y ∈ xs -> y <= m.
Proof.
  revert x. induction xs as [|z zs IH]; intros x; cbn [fold_left].
  - split; [by left|]. split; [apply Qle_refl|]. intros y Hy. inversion Hy.
  - destruct (IH (Np.maximum x z)) as (Hin & Hle & Hall).
    assert (Hx : x <= Np.maximum x z /\ z <= Np.maximum x z).
    { unfold Np.maximum. destruct (Qle_bool x z) eqn:E.
      - apply Qle_bool_iff in E. split; [done | apply Qle_refl].
      - split; [apply Qle_refl|]. apply Qlt_le_weak, Qltb_lt.
        unfold Np.Qltb. by rewrite E. }
    destruct Hx as [Hx Hz]. split; [|split].
    + destruct Hin as [Hin|Hin].
      * rewrite Hin. unfold Np.maximum. destruct (Qle_bool x z).
        -- right. apply list_elem_of_here.
        -- by left.
      * right. by apply list_elem_of_further.
    + by eapply Qle_trans.
    + intros y Hy. apply elem_of_cons in Hy as [->|Hy].
      * by eapply Qle_trans.
      * by apply Hall.
Qed.

Lemma max_peak_of (row : list Q) (p : Q) : Np.max row = Some p -> peak_of row p.
Proof.
  destruct row as [|x xs]; cbn [Np.max]; [done|]. intros [= <-].
  destruct (fold_maximum xs x) as (Hin & Hle & Hall). split.
  - destruct Hin as [->|Hin]; [apply list_elem_of_here | by apply list_elem_of_further].
  - intros y Hy. apply elem_of_cons in Hy as [->|Hy]; [done | by apply Hall].
Qed.

Lemma max_axis1_peaks (a : list (list Q)) (peaks : list Q) :
  Np.max_axis1 a = Some peaks -> Forall2 peak_of a peaks.
Proof.
  unfold Np.max_axis1. rewrite mapM_Some. intros H.
  induction H; constructor; [by apply max_peak_of | done].
Qed.

Lemma max_axis1_length (a : list (list Q)) (peaks : list Q) :
  Np.max_axis1 a = Some peaks -> length peaks = length a.
Proof. intros H. symmetry. by eapply Forall2_length, max_axis1_peaks. Qed.

Lemma max_axis1_total (a : list (list Q)) :
  Forall (fun row => row <> []) a -> exists peaks, Np.max_axis1 a = Some peaks.
Proof.
  intros H. apply (mapM_is_Some_2 Np.max). eapply Forall_impl; [exact H|].
  intros [|x xs] Hne; [done | by eexists].
Qed.

(** ** The classification loop *)

Lemma classify_from_filter (peaks : list Q) (t : Q) (i : nat) (s w : list nat) :
  classify_from i peaks t s w =
  (s ++ List.filter (fun j => Qle_bool t (nth (j - i) peaks 0)) (seq i (length peaks)),
   w ++ List.filter (fun j => Np.Qltb (nth (j - i) peaks 0) t) (seq i (length peaks))).
Proof.
  revert i s w.
  induction peaks as [|p ps IH]; intros i s w; cbn [classify_from length seq List.filter].
  - by rewrite !app_nil_r.
  - assert (Hs : forall f : Q -> bool,
        List.filter (fun j => f (nth (j - i) (p :: ps) 0)) (seq (S i) (length ps)) =
        List.filter (fun j => f (nth (j - S i) ps 0)) (seq (S i) (length ps))).
    { intros f. apply filter_ext_in. intros j Hj. apply in_seq in Hj.
      replace (j - i)%nat with (S (j - S i)) by lia. done. }
    rewrite Nat.sub_diag, (Hs (Qle_bool t)), (Hs (fun x => Np.Qltb x t)).
    cbn [nth]. rewrite (Qltb_negb p t).
    destruct (Qle_bool t p); cbn [negb]; rewrite IH, <- ?app_assoc; done.
Qed.

Lemma classify_from_0 (peaks : list Q) (t : Q) :
  classify_from 0 peaks t [] [] =
  (strong_indices_relaxed peaks t, weak_indices_relaxed peaks t).
Proof.
  rewrite classify_from_filter. unfold strong_indices_relaxed, weak_indices_relaxed.
  simpl. f_equal; apply filter_ext; intros j; by rewrite Nat.sub_0_r.
Qed.

(** ** Index sets selected by a test *)

Lemma filter_partition (f : nat -> bool) (n : nat) :
  is_partition n (List.filter f (seq 0 n), List.filter (fun i => negb (f i)) (seq 0 n)).
Proof.
  split; simpl.
  - apply set_eq. intros i.
    rewrite elem_of_union, !elem_of_list_to_set, !list_elem_of_In, !filter_In,
      elem_of_set_seq, in_seq.
    destruct (f i); simpl; intuition (try lia; try done).
  - intros i. rewrite !elem_of_list_to_set, !list_elem_of_In, !filter_In.
    intros [_ H1] [_ H2]. rewrite H1 in H2. done.
Qed.

Lemma filter_all (f : nat -> bool) (l : list nat) :
  (forall i, In i l -> f i = true) -> List.filter f l = l.
Proof.
  induction l as [|a l IH]; intros H; simpl; [done|].
  rewrite (H a) by (by left). f_equal. apply IH. intros i Hi. apply H. by right.
Qed.

Lemma filter_none (f : nat -> bool) (l : list nat) :
  (forall i, In i l -> f i = false) -> List.filter f l = [].
Proof.
  induction l as [|a l IH]; intros H; simpl; [done|].
  rewrite (H a) by (by left). apply IH. intros i Hi. apply H. by right.
Qed.

Lemma filter_length_mono (f g : nat -> bool) (l : list nat) :
  (forall i, In i l -> f i = true -> g i = true) ->
  (length (List.filter f l) <= length (List.filter g l))%nat.
Proof.
  induction l as [|a l IH]; intros H; simpl; [done|].
  assert (IH' := IH (fun i Hi => H i (or_intror Hi))).
  destruct (f a) eqn:Ef.
  - rewrite (H a) by (done || by left). simpl. lia.
  - destruct (g a); simpl; lia.
Qed.

Lemma filter_subseteq (f g : nat -> bool) (l : list nat) :
  (forall i, In i l -> f i = true -> g i = true) ->
  List.filter f l ⊆ List.filter g l.
Proof.
  intros H i. rewrite !list_elem_of_In, !filter_In. intros [Hi Hf]. eauto.
Qed.

(** ** Approach 1 *)

Lemma strong_indices_relaxed_elem (peaks : list Q) (t : Q) (i : nat) :
  i ∈ strong_indices_relaxed peaks t <-> exists p, peaks !! i = Some p /\ t <= p.
Proof.
  unfold strong_indices_relaxed.
  rewrite list_elem_of_In, filter_In, in_seq, Qle_bool_iff. split.
  - intros [[_ Hi] Hle]. destruct (lookup_lt_is_Some_2 peaks i Hi) as [p Hp].
    exists p. split; [done|]. by rewrite (nth_lookup_Some _ _ 0 _ Hp) in Hle.
  - intros (p & Hp & Hle). split.
    + split; [lia|]. by eapply lookup_lt_Some.
    + by rewrite (nth_lookup_Some _ _ 0 _ Hp).
Qed.

Lemma weak_indices_relaxed_elem (peaks : list Q) (t : Q) (i : nat) :
  i ∈ weak_indices_relaxed peaks t <-> exists p, peaks !! i = Some p /\ p < t.
Proof.
  unfold weak_indices_relaxed.
  rewrite list_elem_of_In, filter_In, in_seq, Qltb_lt. split.
  - intros [[_ Hi] Hle]. destruct (lookup_lt_is_Some_2 peaks i Hi) as [p Hp].
    exists p. split; [done|]. by rewrite (nth_lookup_Some _ _ 0 _ Hp) in Hle.
  - intros (p & Hp & Hle). split.
    + split; [lia|]. by eapply lookup_lt_Some.
    + by rewrite (nth_lookup_Some _ _ 0 _ Hp).
Qed.

Lemma threshold_classifier_eq (r : Q) (a : list (list Q)) (peaks : list Q) (t : Q) :
  Np.max_axis1 a = Some peaks -> Skimage.threshold_otsu peaks = Some t ->
  threshold_classifier r a =
  Some (strong_indices_relaxed peaks (t * r), weak_indices_relaxed peaks (t * r)).
Proof.
  intros Hp Ht. unfold threshold_classifier. rewrite Hp. simpl. rewrite Ht. simpl.
  by rewrite classify_from_0.
Qed.

Lemma threshold_classifier_inv (r : Q) (a : list (list Q)) (p : list nat * list nat) :
  threshold_classifier r a = Some p ->
  exists peaks t,
    Np.max_axis1 a = Some peaks /\ Skimage.threshold_otsu peaks = Some t /\
    p = (strong_indices_relaxed peaks (t * r), weak_indices_relaxed peaks (t * r)).
Proof.
  unfold threshold_classifier. intros H.
  destruct (Np.max_axis1 a) as [peaks|] eqn:Hp; [|done]. simpl in H.
  destruct (Skimage.threshold_otsu peaks) as [t|] eqn:Ht; [|done]. simpl in H.
  exists peaks, t. rewrite classify_from_0 in H. by injection H as <-.
Qed.

Lemma threshold_classifier_partition (r : Q) (a : list (list Q)) (p : list nat * list nat) :
  threshold_classifier r a = Some p -> is_partition (length a) p.
Proof.
  intros H. apply threshold_classifier_inv in H as (peaks & t & Hp & _ & ->).
  rewrite <- (max_axis1_length _ _ Hp).
  apply (filter_partition (fun i => Qle_bool (t * r) (nth i peaks 0))).
Qed.

(** C3. The threshold classifier takes the maximum of every row as its peak
    intensity, the Otsu threshold [t] of the peaks, relaxes it to
    [t * 0.715], and returns [strong = {i : p_i >= t * 0.715}] and
    [weak = {i : p_i < t * 0.715}]; it returns whenever the peaks and their
    Otsu threshold exist. *)
Theorem approach1_thresholds_the_peaks (a : list (list Q)) (strong weak : list nat) :
  approach1 a = Some (strong, weak) <->
  exists peaks t,
    Np.max_axis1 a = Some peaks /\ Forall2 peak_of a peaks /\
    Skimage.threshold_otsu peaks = Some t /\
    strong = strong_indices_relaxed peaks (t * (143 # 200)) /\
    weak = weak_indices_relaxed peaks (t * (143 # 200)) /\
    (forall i, i ∈ strong <-> exists p, peaks !! i = Some p /\ t * (143 # 200) <= p) /\
    (forall i, i ∈ weak <-> exists p, peaks !! i = Some p /\ p < t * (143 # 200)).
Proof.
  unfold approach1, relax_factor. split.
  - intros H. apply threshold_classifier_inv in H as (peaks & t & Hp & Ht & [= -> ->]).
    exists peaks, t. repeat split; try done.
    + by apply max_axis1_peaks.
    + by apply strong_indices_relaxed_elem.
    + by apply strong_indices_relaxed_elem.
    + by apply weak_indices_relaxed_elem.
    + by apply weak_indices_relaxed_elem.
  - intros (peaks & t & Hp & _ & Ht & -> & -> & _). by apply threshold_classifier_eq.
Qed.

(** C7, as amended. When the Otsu threshold of the peak intensities is not
    negative, a larger relax factor keeps every weak index: the weak set
    for [r2] contains the weak set for [r1 <= r2], and is at least as
    large. *)
Theorem relaxing_less_keeps_the_weak (a : list (list Q)) (r1 r2 : Q)
    (peaks : list Q) (t : Q) :
  Np.max_axis1 a = Some peaks -> Skimage.threshold_otsu peaks = Some t ->
  0 <= t -> r1 <= r2 ->
  exists s1 w1 s2 w2,
    threshold_classifier r1 a = Some (s1, w1) /\
    threshold_classifier r2 a = Some (s2, w2) /\
    w1 ⊆ w2 /\ (length w1 <= length w2)%nat.
Proof.
  intros Hp Ht Ht0 Hr.
  exists (strong_indices_relaxed peaks (t * r1)), (weak_indices_relaxed peaks (t * r1)),
         (strong_indices_relaxed peaks (t * r2)), (weak_indices_relaxed peaks (t * r2)).
  rewrite !(threshold_classifier_eq _ _ _ _ Hp Ht).
  assert (Hle : t * r1 <= t * r2) by nra.
  assert (Hmono : forall i, In i (seq 0 (length peaks)) ->
            Np.Qltb (nth i peaks 0) (t * r1) = true ->
            Np.Qltb (nth i peaks 0) (t * r2) = true).
  { intros i _. rewrite !Qltb_lt. intros H. by eapply Qlt_le_trans. }
  repeat split; try done.
  - by apply filter_subseteq.
  - by apply filter_length_mono.
Qed.

Lemma relaxing_less_keeps_the_weak_witness :
  exists s1 w1 s2 w2,
    threshold_classifier (1 # 2) [[1; 3]; [7; 2]] = Some (s1, w1) /\
    threshold_classifier 1 [[1; 3]; [7; 2]] = Some (s2, w2) /\
    w1 ⊆ w2 /\ (length w1 <= length w2)%nat.
Proof.
  apply (relaxing_less_keeps_the_weak [[1; 3]; [7; 2]] (1 # 2) 1 [3; 7] (385 # 128)).
  - reflexivity.
  - vm_compute. reflexivity.
  - vm_compute. discriminate.
  - vm_compute. discriminate.
Defined.

(** C7, as stated, fails on peak intensities [-10, -1]: the Otsu threshold
    is negative (-5111/512), so with r1 = 1/20 both rows are weak and with
    r2 = 1 only row 0 is. *)
Lemma relaxing_less_can_shrink_the_weak :
  ~ (forall (a : list (list Q)) (r1 r2 : Q) (s1 w1 s2 w2 : list nat),
       r1 <= r2 -> r2 <= 1 ->
       threshold_classifier r1 a = Some (s1, w1) ->
       threshold_classifier r2 a = Some (s2, w2) ->
       (length w1 <= length w2)%nat).
Proof.
  intros H.
  specialize (H [[-10]; [-1]] (1 # 20) 1 [] [0; 1]%nat [1%nat] [0%nat]).
  assert (Hlen : (2 <= 1)%nat); [|lia].
  apply H.
  - vm_compute. discriminate.
  - vm_compute. discriminate.
  - vm_compute. reflexivity.
  - vm_compute. reflexivity.
Qed.

(** ** The sign of the Otsu threshold *)

Lemma fold_minimum (xs : list Q) (x : Q) :
  (fold_left Np.minimum xs x = x \/ fold_left Np.minimum xs x ∈ xs) /\
  fold_left Np.minimum xs x <= x.
Proof.
  revert x. induction xs as [|z zs IH]; intros x; cbn [fold_left].
  - split; [by left | apply Qle_refl].
  - destruct (IH (Np.minimum x z)) as [Hin Hle].
    assert (Hx : Np.minimum x z <= x /\ (Np.minimum x z = x \/ Np.minimum x z = z)).
    { unfold Np.minimum. destruct (Qle_bool z x) eqn:E.
      - apply Qle_bool_iff in E. split; [done | by right].
      - split; [apply Qle_refl | by left]. }
    destruct Hx as [Hx Hc]. split.
    + destruct Hin as [Hin|Hin].
      * rewrite Hin. destruct Hc as [->| ->]; [by left | right; apply list_elem_of_here].
      * right. by apply list_elem_of_further.
    + by eapply Qle_trans.
Qed.

Lemma bin_edge_nonneg (lo hi : Q) (k : nat) :
  0 <= lo -> lo <= hi -> 0 <= Np.bin_edge Skimage.nbins lo hi k.
Proof.
  intros Hlo Hhi. unfold Np.bin_edge, Qdiv.
  change (/ inject_Z (Z.of_nat Skimage.nbins)) with (1 # 256).
  assert (Hk : 0 <= inject_Z (Z.of_nat k)).
  { change 0 with (inject_Z 0). rewrite <- Zle_Qle. lia. }
  nra.
Qed.

(** When no peak intensity is negative, neither is their Otsu threshold:
    it is one of the peaks or the centre of a bin between the smallest
    and the largest. *)
Lemma otsu_of_nonnegative_peaks (peaks : list Q) (t : Q) :
  Forall (fun x => 0 <= x) peaks -> Skimage.threshold_otsu peaks = Some t -> 0 <= t.
Proof.
  intros Hall. unfold Skimage.threshold_otsu.
  destruct peaks as [|x peaks]; [done|].
  apply Forall_cons in Hall as Hx. destruct Hx as [Hx Hrest].
  destruct (forallb _ _); [by intros [= <-]|].
  cbn [Np.min Np.max mbind option_bind]. intros Ht.
  apply list_elem_of_lookup_2, list_elem_of_fmap in Ht as (k & -> & _).
  destruct (fold_minimum peaks x) as [Hin Hle].
  destruct (fold_maximum peaks x) as (_ & Hge & _).
  assert (Hlo : 0 <= fold_left Np.minimum peaks x).
  { destruct Hin as [->|Hin]; [done|]. rewrite Forall_forall in Hrest. by apply Hrest. }
  assert (Hlohi : fold_left Np.minimum peaks x <= fold_left Np.maximum peaks x)
    by (by eapply Qle_trans).
  rewrite Qred_correct. unfold Qdiv. change (/ 2) with (1 # 2).
  pose proof (bin_edge_nonneg _ _ k Hlo Hlohi).
  pose proof (bin_edge_nonneg _ _ (S k) Hlo Hlohi).
  nra.
Qed.

(** ** Identical peak intensities *)

Lemma otsu_constant (peaks : list Q) (x p : Q) :
  Forall (fun y => y == p) (x :: peaks) ->
  Skimage.threshold_otsu (x :: peaks) = Some x.
Proof.
  intros H. unfold Skimage.threshold_otsu.
  replace (forallb (fun y => Qeq_bool y x) (x :: peaks)) with true; [done|].
  symmetry. apply forallb_forall. intros y Hy. apply Qeq_bool_iff.
  rewrite Forall_forall in H.
  rewrite (H y) by (by apply list_elem_of_In).
  symmetry. apply H. apply list_elem_of_here.
Qed.

(** C9, as amended. When all peak intensities are the same value [p] (and
    there is at least one row), the threshold classifier does not fail:
    the Otsu threshold is that value, relaxed to [0.715 * p], and every row
    is strong when [0 <= p] and weak when [p < 0]. *)
Theorem identical_peaks_are_classified (a : list (list Q)) (peaks : list Q) (p : Q) :
  Np.max_axis1 a = Some peaks -> peaks <> [] -> Forall (fun y => y == p) peaks ->
  (exists t, Skimage.threshold_otsu peaks = Some t /\ t == p) /\
  approach1 a =
  Some (if Qle_bool 0 p then (seq 0 (length a), []) else ([], seq 0 (length a))).
Proof.
  intros Hp Hne Hall. destruct peaks as [|x peaks]; [done|].
  assert (Hx : x == p) by (by inversion Hall).
  split; [exists x; split; [by eapply otsu_constant | done]|].
  unfold approach1.
  rewrite (threshold_classifier_eq _ _ _ _ Hp (otsu_constant _ _ _ Hall)).
  rewrite <- (max_axis1_length _ _ Hp).
  assert (Hi : forall i, In i (seq 0 (length (x :: peaks))) ->
            Qle_bool (x * relax_factor) (nth i (x :: peaks) 0) = Qle_bool 0 p).
  { intros i Hi. apply in_seq in Hi.
    destruct (lookup_lt_is_Some_2 (x :: peaks) i) as [y Hy]; [lia|].
    rewrite (nth_lookup_Some _ _ 0 _ Hy).
    assert (Hyp : y == p).
    { rewrite Forall_forall in Hall. apply Hall. by eapply list_elem_of_lookup_2. }
    apply eq_true_iff_eq. rewrite !Qle_bool_iff, Hx, Hyp.
    unfold relax_factor. split; intros; nra. }
  unfold strong_indices_relaxed, weak_indices_relaxed.
  destruct (Qle_bool 0 p) eqn:E; f_equal; f_equal.
  - apply filter_all. intros i Hin. by rewrite Hi.
  - apply filter_none. intros i Hin. by rewrite Qltb_negb, Hi.
  - apply filter_none. intros i Hin. by rewrite Hi.
  - apply filter_all. intros i Hin. by rewrite Qltb_negb, Hi.
Qed.

Lemma identical_peaks_are_classified_witness :
  (exists t, Skimage.threshold_otsu [2; 2; 2] = Some t /\ t == 2) /\
  approach1 [[1; 2]; [2; 0]; [2; 2]] = Some ([0; 1; 2]%nat, []).
Proof.
  apply (identical_peaks_are_classified [[1; 2]; [2; 0]; [2; 2]] [2; 2; 2] 2).
  - reflexivity.
  - discriminate.
  - repeat constructor.
Defined.

(** C9, as stated, fails on the matrix with rows [1] and [1]: the peaks are
    identical and the classifier returns, with both rows strong. *)
Lemma identical_peaks_do_not_fail :
  ~ (forall (a : list (list Q)) (peaks : list Q) (p : Q),
       Np.max_axis1 a = Some peaks -> Forall (fun y => y == p) peaks ->
       approach1 a = None).
Proof.
  intros H. specialize (H [[1]; [1]] [1; 1] 1).
  assert (Hs : approach1 [[1]; [1]] = Some ([0; 1]%nat, [])) by (vm_compute; reflexivity).
  rewrite H in Hs; [done | reflexivity | repeat constructor].
Qed.

(** ** Approach 2: the two loops *)

Section Fences.

Variables (k_lo k_hi : Q) (df : DataFrame).

Local Abbreviation contributing := (contributing k_lo k_hi df).
Local Abbreviation collected := (collected k_lo k_hi df).

Lemma outlier_loop_elem (waves acc res : list nat) :
  outlier_loop k_lo k_hi df waves acc = Some res ->
  forall w, w ∈ res <-> w ∈ acc \/ (w ∈ waves /\ contributing w).
Proof.
  revert acc. induction waves as [|v waves IH]; intros acc; cbn [outlier_loop].
  - intros [= <-] w. rewrite elem_of_nil. tauto.
  - destruct (Pd.float_column v df) as [col|] eqn:Hcol; [|done]. cbn [mbind option_bind].
    destruct (has_outlier k_lo k_hi col) eqn:Hout; intros H w;
      rewrite (IH _ H w), elem_of_cons; [rewrite elem_of_app, list_elem_of_singleton|];
      unfold contributing; split.
    + intros [[?| ->]|[? ?]]; eauto 8.
    + intros [?|[[->|?] ?]]; eauto 8.
    + intros [?|[? ?]]; eauto 8.
    + intros [?|[[->|?] Hc]]; eauto 8.
      destruct Hc as (col' & Hcol' & Hout'). congruence.
Qed.

Lemma outlier_loop_total (waves acc : list nat) :
  Forall (fun w => is_Some (Pd.float_column w df)) waves <->
  is_Some (outlier_loop k_lo k_hi df waves acc).
Proof.
  revert acc. induction waves as [|v waves IH]; intros acc; cbn [outlier_loop].
  - split; [by eexists | constructor].
  - rewrite Forall_cons. destruct (Pd.float_column v df) as [col|] eqn:Hcol.
    + cbn [mbind option_bind].
      destruct (has_outlier k_lo k_hi col); rewrite <- IH; intuition eauto.
    + cbn [mbind option_bind]. split; [intros [[? ?] _]; done | intros [? ?]; done].
Qed.

Lemma strong_loop_elem (cols acc res : list nat) :
  strong_loop k_lo k_hi df cols acc = Some res ->
  forall i, i ∈ res <-> i ∈ acc \/ exists w, w ∈ cols /\ collected w i.
Proof.
  revert acc. induction cols as [|v cols IH]; intros acc; cbn [strong_loop].
  - intros [= <-] i. split; [by left|]. intros [?|(w & Hw & _)]; [done|].
    by apply elem_of_nil in Hw.
  - destruct (Pd.float_column v df) as [col|] eqn:Hcol; [|done]. cbn [mbind option_bind].
    intros H i. rewrite (IH _ H i), elem_of_app. unfold collected. split.
    + intros [[?|?]|(w & Hw & Hc)]; [by left| |].
      * right. exists v. split; [apply list_elem_of_here | eauto].
      * right. exists w. split; [by apply list_elem_of_further | done].
    + intros [?|(w & Hw & col' & Hcol' & Hi)]; [by left; left|].
      apply elem_of_cons in Hw as [->|Hw].
      * left. right. congruence.
      * right. exists w. eauto.
Qed.

Lemma strong_loop_total (cols acc : list nat) :
  Forall (fun w => is_Some (Pd.float_column w df)) cols ->
  is_Some (strong_loop k_lo k_hi df cols acc).
Proof.
  revert acc. induction cols as [|v cols IH]; intros acc; cbn [strong_loop].
  - by eexists.
  - rewrite Forall_cons. intros [[col Hcol] Hall]. rewrite Hcol. cbn [mbind option_bind].
    by apply IH.
Qed.

(** What [strong_spectra_approach2] holds: the rows collected for some
    contributing wavenumber. *)
Lemma strong_spectra_approach2_elem (strong : list nat) :
  strong_spectra_approach2 k_lo k_hi df = Some strong ->
  forall i, i ∈ strong <->
            exists w, w ∈ wave_num df /\ contributing w /\ collected w i.
Proof.
  unfold strong_spectra_approach2, outlier.
  destruct (outlier_loop k_lo k_hi df (wave_num df) []) as [cols|] eqn:Hcols; [|done].
  cbn [mbind option_bind]. intros H i.
  rewrite (strong_loop_elem _ _ _ H i). split.
  - intros [Hi|(w & Hw & Hc)]; [by apply elem_of_nil in Hi|].
    apply (outlier_loop_elem _ _ _ Hcols) in Hw as [Hw|[Hw Hcon]];
      [by apply elem_of_nil in Hw|]. eauto.
  - intros (w & Hw & Hcon & Hc). right. exists w. split; [|done].
    apply (outlier_loop_elem _ _ _ Hcols). eauto.
Qed.

(** The classifier fails exactly when a column from position 10 on holds
    a string (or a row is too short to have the column). *)
Lemma strong_spectra_approach2_total :
  Forall (fun w => is_Some (Pd.float_column w df)) (wave_num df) <->
  is_Some (strong_spectra_approach2 k_lo k_hi df).
Proof.
  unfold strong_spectra_approach2, outlier. split.
  - intros Hall. destruct (proj1 (outlier_loop_total _ []) Hall) as [cols Hcols].
    rewrite Hcols. cbn [mbind option_bind]. apply strong_loop_total.
    apply Forall_forall. intros w Hw.
    apply (outlier_loop_elem _ _ _ Hcols) in Hw as [Hw|[Hw _]];
      [by apply elem_of_nil in Hw|].
    rewrite Forall_forall in Hall. by apply Hall.
  - intros [res H]. apply (outlier_loop_total _ []).
    destruct (outlier_loop k_lo k_hi df (wave_num df) []); [by eexists | done].
Qed.

End Fences.

Lemma index_isin_partition (n : nat) (s : gset nat) :
  is_partition n (Pd.index_isin n s, Pd.index_not_isin n s).
Proof. apply (filter_partition (fun i => bool_decide (i ∈ s))). Qed.

Lemma index_isin_elem (n : nat) (s : gset nat) (i : nat) :
  i ∈ Pd.index_isin n s <-> (i < n)%nat /\ i ∈ s.
Proof.
  unfold Pd.index_isin. rewrite list_elem_of_In, filter_In, in_seq, bool_decide_eq_true.
  intuition lia.
Qed.

Lemma index_not_isin_elem (n : nat) (s : gset nat) (i : nat) :
  i ∈ Pd.index_not_isin n s <-> (i < n)%nat /\ i ∉ s.
Proof.
  unfold Pd.index_not_isin.
  rewrite list_elem_of_In, filter_In, in_seq, negb_true_iff, bool_decide_eq_false.
  intuition lia.
Qed.

Lemma outlier_classifier_partition (k_lo k_hi : Q) (df : DataFrame)
    (p : list nat * list nat) :
  outlier_classifier k_lo k_hi df = Some p -> is_partition (Pd.len df) p.
Proof.
  unfold outlier_classifier.
  destruct (strong_spectra_approach2 k_lo k_hi df) as [strong|]; [|done].
  intros [= <-]. apply index_isin_partition.
Qed.

(** What the outlier classifier returns: a row is strong exactly when it
    is collected for some contributing wavenumber, and weak otherwise. *)
Lemma outlier_classifier_elem (k_lo k_hi : Q) (df : DataFrame) (s w : list nat) :
  outlier_classifier k_lo k_hi df = Some (s, w) ->
  forall i,
    (i ∈ s <-> (i < Pd.len df)%nat /\
               exists v, v ∈ wave_num df /\ contributing k_lo k_hi df v /\
                         collected k_lo k_hi df v i) /\
    (i ∈ w <-> (i < Pd.len df)%nat /\ i ∉ s).
Proof.
  unfold outlier_classifier.
  destruct (strong_spectra_approach2 k_lo k_hi df) as [strong|] eqn:Hs; [|done].
  cbn [mbind option_bind]. intros [= <- <-] i.
  rewrite index_isin_elem, index_not_isin_elem, elem_of_list_to_set.
  rewrite (strong_spectra_approach2_elem _ _ _ _ Hs i). tauto.
Qed.

(** ** Quartiles *)

Lemma insert_sorted_elem (x y : Q) (l : list Q) :
  y ∈ Pd.insert_sorted x l <-> y = x \/ y ∈ l.
Proof.
  induction l as [|z l IH]; simpl.
  - rewrite list_elem_of_singleton, elem_of_nil. tauto.
  - destruct (Qle_bool x z); rewrite !elem_of_cons, ?IH; tauto.
Qed.

Lemma insert_sorted_length (x : Q) (l : list Q) :
  length (Pd.insert_sorted x l) = S (length l).
Proof.
  induction l as [|z l IH]; simpl; [done|].
  destruct (Qle_bool x z); simpl; by rewrite ?IH.
Qed.

Lemma sort_values_length (l : list Q) : length (Pd.sort_values l) = length l.
Proof.
  induction l as [|z l IH]; simpl; [done|]. by rewrite insert_sorted_length, IH.
Qed.

Lemma insert_sorted_sorted (x : Q) (l : list Q) :
  StronglySorted Qle l -> StronglySorted Qle (Pd.insert_sorted x l).
Proof.
  induction 1 as [|z l Hl IH Hz]; simpl.
  - repeat constructor.
  - destruct (Qle_bool x z) eqn:E.
    + apply Qle_bool_iff in E. constructor; [by constructor|].
      constructor; [done|]. eapply Forall_impl; [exact Hz|].
      intros y Hy. by eapply Qle_trans.
    + constructor; [done|]. apply Forall_forall. intros y Hy.
      apply insert_sorted_elem in Hy as [->|Hy].
      * apply Qlt_le_weak, Qltb_lt. unfold Np.Qltb. by rewrite E.
      * rewrite Forall_forall in Hz. by apply Hz.
Qed.

Lemma sort_values_sorted (l : list Q) : StronglySorted Qle (Pd.sort_values l).
Proof.
  induction l as [|z l IH]; simpl; [constructor | by apply insert_sorted_sorted].
Qed.

Lemma sorted_nth_le (l : list Q) (d : Q) (j k : nat) :
  StronglySorted Qle l -> (j <= k)%nat -> (k < length l)%nat ->
  nth j l d <= nth k l d.
Proof.
  intros Hl. revert j k. induction Hl as [|z l Hl IH Hz]; intros j k Hjk Hk; simpl in Hk.
  - lia.
  - destruct j as [|j], k as [|k]; simpl; try lia.
    + apply Qle_refl.
    + rewrite Forall_forall in Hz. apply Hz, list_elem_of_In, nth_In. lia.
    + apply IH; lia.
Qed.

Lemma interpolate_between (sorted : list Q) (d h : Q) :
  StronglySorted Qle sorted -> 0 <= h ->
  (Z.to_nat (Qfloor h) < length sorted)%nat ->
  nth (Z.to_nat (Qfloor h)) sorted d <= interpolate sorted d h /\
  interpolate sorted d h <=
    nth (Nat.min (S (Z.to_nat (Qfloor h))) (length sorted - 1)) sorted d.
Proof.
  intros Hs Hh Hi. unfold interpolate.
  set (i := Z.to_nat (Qfloor h)) in *.
  set (a := nth i sorted d). set (b := nth (Nat.min (S i) (length sorted - 1)) sorted d).
  assert (Hab : a <= b) by (apply sorted_nth_le; [done | lia | lia]).
  assert (Hg0 : 0 <= h - inject_Z (Qfloor h)).
  { pose proof (Qfloor_le h). lra. }
  assert (Hg1 : h - inject_Z (Qfloor h) <= 1).
  { pose proof (Qlt_floor h) as H. rewrite inject_Z_plus in H.
    change (inject_Z 1) with 1 in H. lra. }
  split; nra.
Qed.

Lemma interpolate_mono (sorted : list Q) (d h h' : Q) :
  StronglySorted Qle sorted -> 0 <= h -> h <= h' ->
  (Z.to_nat (Qfloor h') < length sorted)%nat ->
  interpolate sorted d h <= interpolate sorted d h'.
Proof.
  intros Hs Hh Hhh' Hi'.
  assert (Hfl : (Qfloor h <= Qfloor h')%Z) by (by apply Qfloor_resp_le).
  assert (Hf0 : (0 <= Qfloor h)%Z).
  { change 0%Z with (Qfloor 0). by apply Qfloor_resp_le. }
  destruct (Z.eq_dec (Qfloor h) (Qfloor h')) as [Heq|Hne].
  - unfold interpolate. rewrite <- Heq in *.
    set (i := Z.to_nat (Qfloor h)) in *.
    set (a := nth i sorted d). set (b := nth (Nat.min (S i) (length sorted - 1)) sorted d).
    assert (Hab : a <= b) by (apply sorted_nth_le; [done | lia | lia]).
    nra.
  - destruct (interpolate_between sorted d h) as [_ Hub]; [done | done | lia |].
    destruct (interpolate_between sorted d h') as [Hlb _]; [done | lra | lia |].
    eapply Qle_trans; [exact Hub|]. eapply Qle_trans; [|exact Hlb].
    apply sorted_nth_le; [done | lia | lia].
Qed.

Lemma quantile_unfold (s : list Q) (q : Q) :
  Pd.quantile s q =
  match Pd.sort_values s with
  | [] => None
  | x0 :: _ =>
      Some (interpolate (Pd.sort_values s) x0 (inject_Z (Z.of_nat (length s) - 1) * q))
  end.
Proof.
  unfold Pd.quantile, interpolate. rewrite sort_values_length.
  destruct (Pd.sort_values s); reflexivity.
Qed.

(** The quartiles of a column are ordered, so the interquartile range is
    not negative. *)
Lemma quartiles_ordered (s : list Q) (q1 q3 : Q) :
  Pd.quantile s (1 # 4) = Some q1 -> Pd.quantile s (3 # 4) = Some q3 -> q1 <= q3.
Proof.
  rewrite !quantile_unfold.
  pose proof (sort_values_length s) as Hlen.
  pose proof (sort_values_sorted s) as Hsorted.
  destruct (Pd.sort_values s) as [|x0 srt] eqn:E; [done|].
  rewrite <- E in *. intros H1 H3.
  apply (inj Some) in H1. apply (inj Some) in H3. rewrite <- H1, <- H3.
  assert (Hpos : (1 <= length s)%nat) by (rewrite <- Hlen, E; simpl; lia).
  set (m := inject_Z (Z.of_nat (length s) - 1)).
  assert (Hm : 0 <= m).
  { unfold m. change 0 with (inject_Z 0). rewrite <- Zle_Qle. lia. }
  apply interpolate_mono; [done | nra | nra |].
  rewrite Hlen.
  assert (Hfl : (Qfloor (m * (3 # 4)) <= Z.of_nat (length s) - 1)%Z).
  { rewrite <- (Qfloor_Z (Z.of_nat (length s) - 1)). apply Qfloor_resp_le.
    fold m. nra. }
  lia.
Qed.

(** ** Widening the fences *)

Lemma bounds_widen (k_lo k_hi k_lo' k_hi' : Q) (col : list Q) (lb ub : Q) :
  k_lo <= k_lo' -> k_hi <= k_hi' ->
  bounds k_lo k_hi col = Some (lb, ub) ->
  exists lb' ub', bounds k_lo' k_hi' col = Some (lb', ub') /\ lb' <= lb /\ ub <= ub'.
Proof.
  intros Hlo Hhi. unfold bounds.
  destruct (Pd.quantile col (1 # 4)) as [q1|] eqn:H1; [|done].
  destruct (Pd.quantile col (3 # 4)) as [q3|] eqn:H3; [|done].
  cbn [mbind option_bind]. intros H. apply (inj Some) in H.
  pose proof (quartiles_ordered _ _ _ H1 H3) as Hq.
  eexists _, _. split; [reflexivity|].
  apply (f_equal fst) in H as Hl. apply (f_equal snd) in H as Hu.
  cbn [fst snd] in Hl, Hu. rewrite <- Hl, <- Hu. split; nra.
Qed.

Lemma bounds_none (k_lo k_hi k_lo' k_hi' : Q) (col : list Q) :
  bounds k_lo k_hi col = None -> bounds k_lo' k_hi' col = None.
Proof.
  unfold bounds.
  destruct (Pd.quantile col (1 # 4)); [|done].
  destruct (Pd.quantile col (3 # 4)); done.
Qed.

Lemma has_outlier_widen (k_lo k_hi k_lo' k_hi' : Q) (col : list Q) :
  k_lo <= k_lo' -> k_hi <= k_hi' ->
  has_outlier k_lo' k_hi' col = true -> has_outlier k_lo k_hi col = true.
Proof.
  intros Hlo Hhi. unfold has_outlier.
  destruct (bounds k_lo k_hi col) as [[lb ub]|] eqn:Hb.
  - destruct (bounds_widen _ _ _ _ _ _ _ Hlo Hhi Hb) as (lb' & ub' & -> & Hl & Hu).
    rewrite !existsb_exists. intros (x & Hx & Hout). exists x. split; [done|].
    rewrite orb_true_iff, !Qltb_lt in *. destruct Hout; [left | right]; lra.
  - by rewrite (bounds_none _ _ k_lo' k_hi' _ Hb).
Qed.

Lemma boolean_index_elem (m : list bool) (i : nat) :
  i ∈ Pd.boolean_index m <-> m !! i = Some true.
Proof.
  unfold Pd.boolean_index. rewrite list_elem_of_In, filter_In, in_seq. split.
  - intros [[_ Hi] Hn]. destruct (lookup_lt_is_Some_2 m i Hi) as [b Hb].
    by rewrite (nth_lookup_Some _ _ false _ Hb) in Hn; subst.
  - intros Hm. split.
    + split; [lia | by eapply lookup_lt_Some].
    + by rewrite (nth_lookup_Some _ _ false _ Hm).
Qed.

Lemma filtered_index_elem (k_lo k_hi : Q) (col : list Q) (i : nat) :
  i ∈ filtered_index k_lo k_hi col <->
  exists lb ub x, bounds k_lo k_hi col = Some (lb, ub) /\ col !! i = Some x /\
                  (x <= lb \/ ub <= x).
Proof.
  unfold filtered_index. destruct (bounds k_lo k_hi col) as [[lb ub]|].
  - rewrite boolean_index_elem, list_lookup_fmap. split.
    + destruct (col !! i) as [x|]; [|done]. cbn [fmap option_fmap option_map].
      intros H. apply (inj Some) in H.
      rewrite orb_true_iff, !Qle_bool_iff in H. eauto 8.
    + intros (lb' & ub' & x & [= <- <-] & -> & H). cbn [fmap option_fmap option_map].
      f_equal. by rewrite orb_true_iff, !Qle_bool_iff.
  - rewrite elem_of_nil. split; [done|]. intros (? & ? & ? & ? & _). done.
Qed.

Lemma filtered_index_widen (k_lo k_hi k_lo' k_hi' : Q) (col : list Q) (i : nat) :
  k_lo <= k_lo' -> k_hi <= k_hi' ->
  i ∈ filtered_index k_lo' k_hi' col -> i ∈ filtered_index k_lo k_hi col.
Proof.
  intros Hlo Hhi. rewrite !filtered_index_elem.
  intros (lb' & ub' & x & Hb' & Hx & Hout).
  destruct (bounds k_lo k_hi col) as [[lb ub]|] eqn:Hb.
  - destruct (bounds_widen _ _ _ _ _ _ _ Hlo Hhi Hb) as (lb2 & ub2 & Hb2 & Hl & Hu).
    rewrite Hb' in Hb2. injection Hb2 as <- <-.
    exists lb, ub, x. repeat split; [done|]. destruct Hout; [left | right]; lra.
  - by rewrite (bounds_none _ _ k_lo' k_hi' _ Hb) in Hb'.
Qed.

(** C8. With larger multipliers on both sides the outlier classifier still
    returns, and its strong set is included in the strong set of the
    smaller multipliers (its weak set then includes the other weak set). *)
Theorem wider_fences_flag_fewer_rows (df : DataFrame) (k_lo k_hi k_lo' k_hi' : Q)
    (s w : list nat) :
  k_lo <= k_lo' -> k_hi <= k_hi' ->
  outlier_classifier k_lo k_hi df = Some (s, w) ->
  exists s' w',
    outlier_classifier k_lo' k_hi' df = Some (s', w') /\ s' ⊆ s /\ w ⊆ w'.
Proof.
  intros Hlo Hhi. unfold outlier_classifier.
  destruct (strong_spectra_approach2 k_lo k_hi df) as [strong|] eqn:Hs; [|done].
  cbn [mbind option_bind]. intros [= <- <-].
  destruct (proj1 (strong_spectra_approach2_total k_lo' k_hi' df)) as [strong' Hs'].
  { apply (strong_spectra_approach2_total k_lo k_hi df). by eexists. }
  rewrite Hs'. cbn [mbind option_bind]. eexists _, _. split; [reflexivity|].
  assert (Hsub : forall i, i ∈ strong' -> i ∈ strong).
  { intros i Hi.
    apply (strong_spectra_approach2_elem _ _ _ _ Hs') in Hi
      as (v & Hv & (col & Hcol & Hout) & (col' & Hcol' & Hin)).
    apply (strong_spectra_approach2_elem _ _ _ _ Hs). exists v. split; [done|].
    split; exists col; (split; [done|]).
    - by eapply has_outlier_widen.
    - replace col with col' by congruence. by eapply filtered_index_widen. }
  split; intros i.
  - rewrite !index_isin_elem, !elem_of_list_to_set. intros [Hn Hi]. auto.
  - rewrite !index_not_isin_elem, !elem_of_list_to_set. intros [Hn Hi]. auto.
Qed.

Lemma wider_fences_flag_fewer_rows_witness :
  exists s' w',
    outlier_classifier 6 5 (dataframe_of (one_wavenumber [0; 0; 0; 0; 0; 0; 1; 5; 7]))
    = Some (s', w') /\
    s' ⊆ [7; 8]%nat /\ [0; 1; 2; 3; 4; 5; 6]%nat ⊆ w'.
Proof.
  apply (wider_fences_flag_fewer_rows _ 5 4 6 5).
  - vm_compute. discriminate.
  - vm_compute. discriminate.
  - vm_compute. reflexivity.
Defined.

Lemma forallb_false_elim {A} (l : list A) (f : A -> bool) :
  forallb f l = false -> exists v, v ∈ l /\ f v = false.
Proof.
  induction l as [|a l IH]; simpl; [done|].
  destruct (f a) eqn:E; simpl.
  - intros H. destruct (IH H) as (v & Hv & Hf). exists v.
    split; [by apply list_elem_of_further | done].
  - intros _. exists a. split; [apply list_elem_of_here | done].
Qed.

(** ** Approach 3 *)

Lemma isin_appears_in (media : list (list cell)) (v : cell) :
  Np.isin cell_eqb v (concat media) = true <-> appears_in media v.
Proof.
  unfold Np.isin, appears_in. rewrite existsb_exists. split.
  - intros (w & Hw & Heq). apply in_concat in Hw as (r & Hr & Hw).
    exists r, w. by rewrite !list_elem_of_In.
  - intros (r & w & Hr & Hw & Heq). exists w. split; [|done].
    apply in_concat. exists r. by rewrite <- !list_elem_of_In.
Qed.

Lemma not_matching_lookup (measurement media : list (list cell)) (i : nat) (b : bool) :
  not_matching measurement media !! i = Some b <->
  exists row, measurement !! i = Some row /\
    b = negb (forallb (fun v => Np.isin cell_eqb v (concat media)) row).
Proof.
  unfold not_matching. rewrite list_lookup_fmap.
  destruct (measurement !! i) as [row|]; cbn [fmap option_fmap option_map].
  - split; [intros [= <-]; eauto | intros (row' & [= <-] & ->); done].
  - split; [done | intros (row' & ? & _); done].
Qed.

Lemma negb_mask_nth (m : list bool) (i : nat) :
  (i < length m)%nat -> nth i (map negb m) false = negb (nth i m false).
Proof.
  intros Hi. rewrite (nth_indep (map negb m) false (negb true))
    by (rewrite length_map; lia).
  rewrite map_nth. by rewrite (nth_indep m true false) by lia.
Qed.

Lemma reference_match_partition (measurement media : list (list cell)) :
  is_partition (length measurement) (reference_match measurement media).
Proof.
  unfold reference_match, Pd.boolean_index. rewrite length_map.
  replace (length measurement) with (length (not_matching measurement media))
    by (unfold not_matching; by rewrite length_map).
  set (m := not_matching measurement media).
  replace (List.filter (fun i => nth i (map negb m) false) (seq 0 (length m)))
    with (List.filter (fun i => negb (nth i m false)) (seq 0 (length m))).
  { apply (filter_partition (fun i => nth i m false)). }
  apply filter_ext_in. intros i Hi. apply in_seq in Hi.
  symmetry. apply negb_mask_nth. lia.
Qed.

Lemma approach3_reference_match (measurement_df media_df : DataFrame) :
  approach3 measurement_df media_df =
  Some (reference_match (values (Pd.iloc_cols_from 11 measurement_df))
                        (values (Pd.iloc_cols_from 11 media_df))).
Proof. reflexivity. Qed.

Lemma approach3_partition (measurement_df media_df : DataFrame) (p : list nat * list nat) :
  approach3 measurement_df media_df = Some p ->
  is_partition (Pd.len measurement_df) p.
Proof.
  rewrite approach3_reference_match. intros [= <-].
  replace (Pd.len measurement_df)
    with (length (values (Pd.iloc_cols_from 11 measurement_df)))
    by (unfold Pd.iloc_cols_from, Pd.len; cbn [values]; by rewrite length_map).
  apply reference_match_partition.
Qed.

(** C4. For every measurement matrix and reference matrix, the
    reference-match classifier labels a row weak exactly when every value
    of the row appears somewhere among the values of the reference matrix,
    and strong exactly when some value of the row is absent from them. The
    script runs it, without ever failing, on the values from column
    position 11 on of the measurement and of the media table. *)
Theorem reference_match_compares_values :
  (forall (measurement media : list (list cell)) (i : nat),
     (i ∈ (reference_match measurement media).2 <->
        exists row, measurement !! i = Some row /\
                    forall v, v ∈ row -> appears_in media v) /\
     (i ∈ (reference_match measurement media).1 <->
        exists row, measurement !! i = Some row /\
                    exists v, v ∈ row /\ ~ appears_in media v)) /\
  (forall measurement_df media_df : DataFrame,
     approach3 measurement_df media_df =
     Some (reference_match (values (Pd.iloc_cols_from 11 measurement_df))
                           (values (Pd.iloc_cols_from 11 media_df)))).
Proof.
  split; [|apply approach3_reference_match].
  intros measurement media i. unfold reference_match. cbn [fst snd]. split.
  - rewrite boolean_index_elem, list_lookup_fmap. split.
    + destruct (not_matching measurement media !! i) as [b|] eqn:Hb; [|done].
      cbn [fmap option_fmap option_map]. intros [= Hn].
      apply not_matching_lookup in Hb as (row & Hrow & ->). exists row. split; [done|].
      rewrite negb_involutive, forallb_forall in Hn. intros v Hv.
      apply isin_appears_in, Hn. by apply list_elem_of_In.
    + intros (row & Hrow & Hall).
      assert (Hb : not_matching measurement media !! i = Some false).
      { apply not_matching_lookup. exists row. split; [done|]. symmetry.
        apply negb_false_iff, forallb_forall. intros v Hv.
        apply isin_appears_in, Hall. by apply list_elem_of_In. }
      by rewrite Hb.
  - rewrite boolean_index_elem, not_matching_lookup. split.
    + intros (row & Hrow & Hn). exists row. split; [done|].
      symmetry in Hn. apply negb_true_iff in Hn.
      destruct (forallb_false_elim row _ Hn) as (v & Hv & Hf).
      exists v. split; [done|]. rewrite <- isin_appears_in. by rewrite Hf.
    + intros (row & Hrow & v & Hv & Hn). exists row. split; [done|].
      symmetry. apply negb_true_iff, not_true_iff_false. intros Hall.
      rewrite forallb_forall in Hall. apply Hn, isin_appears_in, Hall.
      by apply list_elem_of_In.
Qed.

(** C6, as amended. The reference-match classifier never looks at the
    wavenumber axes: whatever the column labels of the two tables, it
    returns the same partition of the measurement rows, decided by the
    values alone. *)
Theorem approach3_ignores_the_axes (measurement_df media_df : DataFrame)
    (axis axis' : list cell) :
  exists p,
    approach3 measurement_df media_df = Some p /\
    approach3 (mkDataFrame axis (values measurement_df))
              (mkDataFrame axis' (values media_df)) = Some p /\
    is_partition (Pd.len measurement_df) p.
Proof.
  eexists. split; [reflexivity|]. split; [reflexivity|].
  by apply (approach3_partition measurement_df media_df).
Qed.

(** C6, as stated, fails on a measurement table with the wavenumbers
    100, 200 and a media table with the wavenumbers 300, 400, 500: the axes
    differ in length and in values, and the classifier returns a partition
    (row 0 weak, row 1 strong). *)
Lemma differing_axes_do_not_fail :
  ~ (forall d media : csv,
       wavenumbers d <> wavenumbers media ->
       approach3 (dataframe_of d) (dataframe_of media) = None).
Proof.
  intros H.
  specialize (H (ten_headers [100; 200] [[1; 2]; [3; 4]])
                (ten_headers [300; 400; 500] [[0; 2; 9]])).
  assert (Hs : approach3 (dataframe_of (ten_headers [100; 200] [[1; 2]; [3; 4]]))
                         (dataframe_of (ten_headers [300; 400; 500] [[0; 2; 9]]))
               = Some ([1%nat], [0%nat])) by (vm_compute; reflexivity).
  rewrite H in Hs; [discriminate Hs | discriminate].
Qed.

(** ** Every classifier returns a Partition *)

Lemma len_dataframe_of (d : csv) :
  length (header_columns d) = length (intensities d) ->
  Pd.len (dataframe_of d) = length (intensities d).
Proof.
  intros H. unfold Pd.len, dataframe_of, Pd.concat_axis1. cbn [values].
  rewrite length_zip_with. lia.
Qed.

(** C1. Whatever the relax factor and the fence multipliers, the pair of
    index lists returned by the threshold, the outlier or the
    reference-match classifier on a table of N rows is a partition of
    [{0, ..., N-1}]: the union of strong and weak is the whole index set
    and they are disjoint. *)
Theorem every_classifier_partitions_the_rows (d media : csv) (r k_lo k_hi : Q)
    (p : list nat * list nat) :
  length (header_columns d) = length (intensities d) ->
  threshold_classifier r (intensities d) = Some p \/
  outlier_classifier k_lo k_hi (dataframe_of d) = Some p \/
  approach3 (dataframe_of d) (dataframe_of media) = Some p ->
  is_partition (length (intensities d)) p.
Proof.
  intros Hwf [H|[H|H]].
  - by eapply threshold_classifier_partition.
  - rewrite <- (len_dataframe_of d Hwf). by eapply outlier_classifier_partition.
  - rewrite <- (len_dataframe_of d Hwf). by eapply approach3_partition.
Qed.

Lemma every_classifier_partitions_the_rows_witness :
  let d := ten_headers [100; 200]
             [[0; 2]; [0; 3]; [0; 2]; [0; 3]; [0; 2]; [0; 3]; [1; 2]; [5; 3]; [7; 9]] in
  let media := ten_headers [100; 200] [[0; 2]; [0; 3]] in
  is_partition 9 ([7; 8]%nat, [0; 1; 2; 3; 4; 5; 6]%nat) /\
  is_partition 9 ([7; 8]%nat, [0; 1; 2; 3; 4; 5; 6]%nat) /\
  is_partition 9 ([8%nat], [0; 1; 2; 3; 4; 5; 6; 7]%nat).
Proof.
  intros d media. split; [|split].
  - apply (every_classifier_partitions_the_rows d media relax_factor 5 4);
      [reflexivity|]. left. vm_compute. reflexivity.
  - apply (every_classifier_partitions_the_rows d media relax_factor 5 4);
      [reflexivity|]. right; left. vm_compute. reflexivity.
  - apply (every_classifier_partitions_the_rows d media relax_factor 5 4);
      [reflexivity|]. right; right. vm_compute. reflexivity.
Defined.

(** C2, on the table with 5 rows whose single wavenumber column holds
    1, 1, 1, 1, 2. Both quartiles are 1, so both fences are 1 and only
    row 4 lies outside them; the second loop of the script also collects
    the rows on a fence, and all five rows come out strong. On the column
    1, 1, 1, 1, 1 the same rows on the fence are not collected, as the
    first loop finds no row strictly beyond a fence. *)
Theorem rows_on_a_fence_are_flagged :
  strong_by_fences 5 4 (dataframe_of (one_wavenumber [1; 1; 1; 1; 2])) = Some [4%nat] /\
  outlier 5 4 (dataframe_of (one_wavenumber [1; 1; 1; 1; 2])) = Some [10%nat] /\
  approach2 (dataframe_of (one_wavenumber [1; 1; 1; 1; 2]))
  = Some ([0; 1; 2; 3; 4]%nat, []) /\
  approach2 (dataframe_of (one_wavenumber [1; 1; 1; 1; 1]))
  = Some ([], [0; 1; 2; 3; 4]%nat).
Proof. vm_compute. repeat split; reflexivity. Qed.

(** ** Which columns each approach reads *)

Lemma Forall2_map_eq {A B} (f : A -> B) (l l' : list A) :
  Forall2 (fun r r' => f r = f r') l l' -> map f l = map f l'.
Proof. induction 1; simpl; congruence. Qed.

Lemma approach3_reads_from_11 (df df' media media' : DataFrame) :
  map (drop 11) (values df) = map (drop 11) (values df') ->
  map (drop 11) (values media) = map (drop 11) (values media') ->
  approach3 df media = approach3 df' media'.
Proof.
  intros H1 H2.
  rewrite !approach3_reference_match. unfold Pd.iloc_cols_from.
  cbn [values]. by rewrite H1, H2.
Qed.

Lemma same_but_column_10_from_11 (df df' : DataFrame) :
  same_but_column_10 df df' -> map (drop 11) (values df) = map (drop 11) (values df').
Proof.
  intros [_ H]. apply Forall2_map_eq. eapply Forall2_impl; [exact H|].
  by intros r r' [_ ?].
Qed.

Lemma float_column_from_10 (j : nat) (df : DataFrame) :
  Pd.float_column (10 + j) df =
  mapM (fun r => match r !! j with Some (Num x) => Some x | _ => None end)
       (map (drop 10) (values df)).
Proof.
  unfold Pd.float_column. induction (values df) as [|row rows IH]; [done|].
  cbn [mapM map]. rewrite IH. by rewrite (lookup_drop row 10 j).
Qed.

Lemma outlier_loop_ext (k_lo k_hi : Q) (df df' : DataFrame) (waves acc : list nat) :
  (forall w, w ∈ waves -> Pd.float_column w df = Pd.float_column w df') ->
  outlier_loop k_lo k_hi df waves acc = outlier_loop k_lo k_hi df' waves acc.
Proof.
  revert acc. induction waves as [|v waves IH]; intros acc H; cbn [outlier_loop]; [done|].
  rewrite <- (H v) by apply list_elem_of_here.
  destruct (Pd.float_column v df) as [col|]; [|done]. cbn [mbind option_bind].
  destruct (has_outlier k_lo k_hi col); apply IH; intros w Hw; apply H;
    by apply list_elem_of_further.
Qed.

Lemma strong_loop_ext (k_lo k_hi : Q) (df df' : DataFrame) (cols acc : list nat) :
  (forall w, w ∈ cols -> Pd.float_column w df = Pd.float_column w df') ->
  strong_loop k_lo k_hi df cols acc = strong_loop k_lo k_hi df' cols acc.
Proof.
  revert acc. induction cols as [|v cols IH]; intros acc H; cbn [strong_loop]; [done|].
  rewrite <- (H v) by apply list_elem_of_here.
  destruct (Pd.float_column v df) as [col|]; [|done]. cbn [mbind option_bind].
  apply IH. intros w Hw. apply H. by apply list_elem_of_further.
Qed.

Lemma outlier_classifier_reads_from_10 (k_lo k_hi : Q) (df df' : DataFrame) :
  length (columns df) = length (columns df') ->
  map (drop 10) (values df) = map (drop 10) (values df') ->
  outlier_classifier k_lo k_hi df = outlier_classifier k_lo k_hi df'.
Proof.
  intros Hc Hv.
  assert (Hw : wave_num df = wave_num df') by (unfold wave_num; by rewrite Hc).
  assert (Hf : forall w, w ∈ wave_num df ->
                         Pd.float_column w df = Pd.float_column w df').
  { intros w Hin. unfold wave_num in Hin. apply elem_of_seq in Hin.
    replace w with (10 + (w - 10))%nat by lia. by rewrite !float_column_from_10, Hv. }
  assert (Hlen : Pd.len df = Pd.len df').
  { unfold Pd.len. by rewrite <- (length_map (drop 10)), Hv, length_map. }
  unfold outlier_classifier, strong_spectra_approach2, outlier.
  rewrite <- Hw, <- Hlen, <- (outlier_loop_ext _ _ df df' _ _ Hf).
  destruct (outlier_loop k_lo k_hi df (wave_num df) []) as [cols|] eqn:Hcols; [|done].
  cbn [mbind option_bind]. rewrite (strong_loop_ext _ _ df df'); [done|].
  intros w Hin. apply Hf.
  apply (outlier_loop_elem _ _ _ _ _ _ Hcols) in Hin as [Hin|[Hin _]];
    [by apply elem_of_nil in Hin | done].
Qed.

Lemma ten_header_columns (d : csv) :
  well_formed d -> length (header_labels d) = 10%nat ->
  map (drop 10) (values (dataframe_of d)) = map (map Num) (intensities d).
Proof.
  intros (Hlen & Hh & _) H10. unfold dataframe_of, Pd.concat_axis1. cbn [values].
  rewrite H10 in Hh. revert Hlen Hh.
  generalize (header_columns d) (intensities d).
  induction l as [|h hs IH]; intros [|r rs] Hlen Hh; simpl in Hlen; try done.
  apply Forall_cons in Hh as [Hh1 Hh]. cbn [zip_with map]. f_equal.
  - apply drop_app_length'. by rewrite length_map.
  - apply IH; [lia | done].
Qed.

(** C10. The reference-match classifier reads the cells from column
    position 11 on of both tables, so the cells at position 10 never change
    its partition. The outlier classifier reads the cells from position 10
    on, and with ten header columns these are exactly the intensities the
    threshold classifier takes its peaks from; changing one cell at
    position 10 can change the partition of both. *)
Theorem column_10_is_skipped_by_approach3_only :
  (forall df df' media media',
     same_but_column_10 df df' -> same_but_column_10 media media' ->
     approach3 df media = approach3 df' media') /\
  (forall k_lo k_hi df df',
     length (columns df) = length (columns df') ->
     map (drop 10) (values df) = map (drop 10) (values df') ->
     outlier_classifier k_lo k_hi df = outlier_classifier k_lo k_hi df') /\
  (forall d, well_formed d -> length (header_labels d) = 10%nat ->
     map (drop 10) (values (dataframe_of d)) = map (map Num) (intensities d)) /\
  (exists d d',
     well_formed d /\ well_formed d' /\
     same_but_column_10 (dataframe_of d) (dataframe_of d') /\
     approach1 (intensities d) <> approach1 (intensities d') /\
     approach2 (dataframe_of d) <> approach2 (dataframe_of d')).
Proof.
  split; [|split; [|split]].
  - intros df df' media media' H H'.
    apply approach3_reads_from_11; by apply same_but_column_10_from_11.
  - apply outlier_classifier_reads_from_10.
  - apply ten_header_columns.
  - exists (ten_headers [100; 200]
              [[0; 2]; [0; 3]; [0; 2]; [0; 3]; [0; 2]; [0; 3]; [1; 2]; [5; 3]; [7; 9]]),
           (ten_headers [100; 200]
              [[9; 2]; [0; 3]; [0; 2]; [0; 3]; [0; 2]; [0; 3]; [1; 2]; [5; 3]; [7; 9]]).
    split; [|split; [|split; [|split]]].
    + repeat split; repeat constructor.
    + repeat split; repeat constructor.
    + split; [reflexivity|]. repeat constructor.
    + vm_compute. discriminate.
    + vm_compute. discriminate.
Qed.

(** ** Counting by period *)

Lemma count_value_sum (k : Z) (acc : list (Z * nat)) :
  sum_list_with snd (Pd.count_value k acc) = S (sum_list_with snd acc).
Proof.
  induction acc as [|[k' c] acc IH]; simpl; [done|].
  destruct (Z.eqb k k'); simpl; [done | rewrite IH; lia].
Qed.

Lemma count_value_keys (k k0 : Z) (acc : list (Z * nat)) :
  k0 ∈ map fst (Pd.count_value k acc) <-> k0 = k \/ k0 ∈ map fst acc.
Proof.
  induction acc as [|[k' c] acc IH]; simpl.
  - rewrite list_elem_of_singleton, elem_of_nil. tauto.
  - destruct (Z.eqb k k') eqn:E; simpl; rewrite !elem_of_cons.
    + apply Z.eqb_eq in E. subst. tauto.
    + rewrite IH. tauto.
Qed.

Lemma tally_from_keys (s : list (option Z)) (acc : list (Z * nat)) (k0 : Z) :
  k0 ∈ map fst (fold_left (fun acc o => match o with
                                        | Some k => Pd.count_value k acc
                                        | None => acc
                                        end) s acc)
  <-> k0 ∈ map fst acc \/ Some k0 ∈ s.
Proof.
  revert acc. induction s as [|[k|] s IH]; intros acc; cbn [fold_left].
  - rewrite elem_of_nil. tauto.
  - rewrite IH, count_value_keys, elem_of_cons. split.
    + intros [[->|?]|?]; auto.
    + intros [?|[[= ->]|?]]; auto.
  - rewrite IH, elem_of_cons. split; [tauto|]. intros [?|[?|?]]; auto. done.
Qed.

Section Tally.

(** A property of the keys that are counted. *)
Variable P : Z -> Prop.

Local Abbreviation tallied := (tallied P).

Lemma count_value_tallied (k : Z) (acc : list (Z * nat)) :
  P k -> tallied acc -> tallied (Pd.count_value k acc).
Proof.
  intros Hk. induction acc as [|[k' c] acc IH]; intros [Hnd Hall]; simpl.
  - split; [apply NoDup_singleton | repeat constructor; simpl; (done || lia)].
  - simpl in Hnd. apply NoDup_cons in Hnd as [Hk' Hnd].
    apply Forall_cons in Hall as [[Hp Hc] Hall]. simpl in Hp, Hc.
    destruct (Z.eqb k k') eqn:E; simpl.
    + split; [by apply NoDup_cons|]. constructor; [simpl; split; [done | lia] | done].
    + destruct (IH (conj Hnd Hall)) as [Hnd' Hall']. split.
      * apply NoDup_cons. split; [|done]. rewrite count_value_keys. simpl.
        intros [->|Hin]; [|done]. by rewrite Z.eqb_refl in E.
      * constructor; [by simpl | done].
Qed.

Lemma tally_from (s : list (option Z)) (acc : list (Z * nat)) :
  Forall (fun o => match o with Some k => P k | None => True end) s ->
  tallied acc ->
  tallied (fold_left (fun acc o => match o with
                                   | Some k => Pd.count_value k acc
                                   | None => acc
                                   end) s acc) /\
  sum_list_with snd (fold_left (fun acc o => match o with
                                             | Some k => Pd.count_value k acc
                                             | None => acc
                                             end) s acc)
  = (sum_list_with snd acc + length (omap id s))%nat.
Proof.
  revert acc. induction s as [|[k|] s IH]; intros acc Hs Hacc; cbn [fold_left].
  - cbn [omap list_omap length]. split; [done | lia].
  - apply Forall_cons in Hs as [Hk Hs].
    destruct (IH (Pd.count_value k acc) Hs (count_value_tallied _ _ Hk Hacc))
      as [Ht Hsum].
    split; [done|]. rewrite Hsum, count_value_sum.
    cbn [omap list_omap id length]. lia.
  - apply Forall_cons in Hs as [_ Hs]. by apply IH.
Qed.

Lemma tally_tallied (s : list (option Z)) :
  Forall (fun o => match o with Some k => P k | None => True end) s ->
  tallied (Pd.tally s) /\ sum_list_with snd (Pd.tally s) = length (omap id s).
Proof.
  intros Hs. destruct (tally_from s [] Hs) as [Ht Hsum].
  - split; [constructor | constructor].
  - by split.
Qed.

Lemma tallied_perm (l l' : list (Z * nat)) : l ≡ₚ l' -> tallied l -> tallied l'.
Proof. intros Hp [Hnd Hall]. split; by rewrite <- Hp. Qed.

End Tally.

Lemma insert_by_perm {A} (leb : A -> A -> bool) (x : A) (l : list A) :
  Pd.insert_by leb x l ≡ₚ x :: l.
Proof.
  induction l as [|y l IH]; simpl; [done|].
  destruct (leb x y); [done|]. rewrite IH. apply Permutation_swap.
Qed.

Lemma sort_by_perm {A} (leb : A -> A -> bool) (l : list A) : Pd.sort_by leb l ≡ₚ l.
Proof.
  induction l as [|y l IH]; simpl; [done|]. by rewrite insert_by_perm, IH.
Qed.

Lemma insert_by_key_sorted (x : Z * nat) (l : list (Z * nat)) :
  StronglySorted (fun a b => (a.1 <= b.1)%Z) l ->
  StronglySorted (fun a b => (a.1 <= b.1)%Z)
                 (Pd.insert_by (fun a b => Z.leb a.1 b.1) x l).
Proof.
  induction 1 as [|y l Hl IH Hy]; simpl.
  - repeat constructor.
  - destruct (Z.leb x.1 y.1) eqn:E.
    + apply Z.leb_le in E. constructor; [by constructor|].
      constructor; [done|]. eapply Forall_impl; [exact Hy|]. simpl. lia.
    + apply Z.leb_gt in E. constructor; [done|].
      rewrite insert_by_perm. constructor; [lia | done].
Qed.

Lemma sort_index_sorted (l : list (Z * nat)) :
  StronglySorted (fun a b => (a.1 <= b.1)%Z) (Pd.sort_index l).
Proof.
  unfold Pd.sort_index, Pd.sort_by.
  induction l as [|y l IH]; simpl; [constructor | by apply insert_by_key_sorted].
Qed.

Lemma strongly_sorted_lookup {A} (R : A -> A -> Prop) (l : list A) (i j : nat) (a b : A) :
  StronglySorted R l -> (i < j)%nat -> l !! i = Some a -> l !! j = Some b -> R a b.
Proof.
  intros Hl. revert i j. induction Hl as [|y l Hl IH Hy]; intros i j Hij Hi Hj; [done|].
  destruct j as [|j]; [lia|]. destruct i as [|i]; simpl in Hi, Hj.
  - injection Hi as <-. rewrite Forall_forall in Hy. apply Hy.
    by eapply list_elem_of_lookup_2.
  - apply (IH i j); [lia | done | done].
Qed.

Lemma floor_10min_grid (t : Z) : (Pd.ten_minutes | Pd.floor_10min t)%Z.
Proof.
  unfold Pd.floor_10min. exists (t / Pd.ten_minutes)%Z.
  pose proof (Z.div_mod t Pd.ten_minutes) as H. unfold Pd.ten_minutes in *. lia.
Qed.

Lemma floor_10min_bucket (t : Z) :
  (Pd.floor_10min t <= t < Pd.floor_10min t + Pd.ten_minutes)%Z.
Proof.
  unfold Pd.floor_10min.
  pose proof (Z.mod_pos_bound t Pd.ten_minutes) as H. unfold Pd.ten_minutes in *. lia.
Qed.

(** What [count_by_period] returns for any column of timestamps: one
    entry per populated bucket, on the grid, by increasing start, the
    counts adding up to the number of timestamps that are not NaT. *)
Lemma count_by_period_spec (times : list (option Z)) :
  tallied (fun k => (Pd.ten_minutes | k)%Z) (count_by_period times) /\
  StronglySorted (fun a b => (a.1 <= b.1)%Z) (count_by_period times) /\
  sum_list_with snd (count_by_period times) = length (omap id times).
Proof.
  unfold count_by_period, Pd.value_counts.
  destruct (tally_tallied (fun k => (Pd.ten_minutes | k)%Z)
              (map (fmap Pd.floor_10min) times)) as [Ht Hsum].
  { apply Forall_forall. intros o Ho. apply list_elem_of_fmap in Ho as ([t|] & -> & _).
    - apply floor_10min_grid.
    - done. }
  assert (Hperm : Pd.sort_index
                    (Pd.sort_by (fun a b => Nat.leb b.2 a.2)
                                (Pd.tally (map (fmap Pd.floor_10min) times)))
                  ≡ₚ Pd.tally (map (fmap Pd.floor_10min) times)).
  { unfold Pd.sort_index. by rewrite !sort_by_perm. }
  split; [|split].
  - eapply tallied_perm; [symmetry; exact Hperm | done].
  - apply sort_index_sorted.
  - rewrite Hperm, Hsum. clear.
    induction times as [|[t|] times IH]; [done | | exact IH].
    change (S (length (omap id (map (fmap Pd.floor_10min) times))) =
            S (length (omap id times))).
    by rewrite IH.
Qed.

Lemma count_by_period_keys (times : list (option Z)) (t : Z) :
  Some t ∈ times -> Pd.floor_10min t ∈ map fst (count_by_period times).
Proof.
  intros Ht. unfold count_by_period, Pd.value_counts, Pd.sort_index.
  rewrite !sort_by_perm. unfold Pd.tally.
  apply tally_from_keys. right.
  by apply (list_elem_of_fmap_2' (fmap Pd.floor_10min) times (Some t)).
Qed.

Lemma total_count_intervals (l : list (Z * nat)) :
  total_count (intervals l) = sum_list_with snd l.
Proof.
  unfold total_count, intervals. induction l as [|[k c] l IH]; simpl; [done|].
  by rewrite IH.
Qed.

Lemma intervals_well_spaced (times : list (option Z)) :
  well_spaced (intervals (count_by_period times)).
Proof.
  destruct (count_by_period_spec times) as ([Hnd Hall] & Hsorted & _).
  unfold intervals. split.
  - apply Forall_fmap. eapply Forall_impl; [exact Hall|].
    intros [k c] [Hk Hc]. simpl in *. done.
  - intros i j b b' Hij Hi Hj.
    rewrite list_lookup_fmap in Hi, Hj.
    destruct (count_by_period times !! i) as [[k c]|] eqn:Ei; [|done].
    destruct (count_by_period times !! j) as [[k' c']|] eqn:Ej; [|done].
    injection Hi as <-. injection Hj as <-. cbn [fst snd].
    pose proof (strongly_sorted_lookup _ _ _ _ _ _ Hsorted Hij Ei Ej) as Hle.
    cbn [fst] in Hle.
    assert (Hne : k <> k').
    { intros ->.
      assert (i = j); [|lia].
      apply (NoDup_lookup _ i j k' Hnd); rewrite list_lookup_fmap.
      - by rewrite Ei.
      - by rewrite Ej. }
    rewrite Forall_forall in Hall.
    destruct (Hall (k, c)) as [[a Ha] _]; [by eapply list_elem_of_lookup_2|].
    destruct (Hall (k', c')) as [[a' Ha'] _]; [by eapply list_elem_of_lookup_2|].
    cbn [fst] in Ha, Ha'. unfold Pd.ten_minutes in *. lia.
Qed.

Lemma take_rows_all {A} (col : list A) (idx : list nat) :
  Forall (fun i => (i < length col)%nat) idx ->
  map fst (take_rows col idx) = idx.
Proof.
  unfold take_rows. induction 1 as [|i idx Hi _ IH]; [done|].
  destruct (lookup_lt_is_Some_2 col i Hi) as [x Hx].
  cbn [omap list_omap]. rewrite Hx. cbn [fmap option_fmap option_map map fst].
  f_equal. exact IH.
Qed.

Lemma df_DateTime_index (DateTime : list Z) (strong_spectra : list nat) :
  map fst (df_DateTime DateTime strong_spectra) =
  Pd.index_not_isin (length DateTime) (list_to_set strong_spectra).
Proof.
  apply take_rows_all, Forall_forall. intros i Hi.
  by apply index_not_isin_elem in Hi as [? _].
Qed.

(** C5, as amended. For the weak rows left by the threshold classifier,
    the per-bucket counts add up to the number of weak rows and every weak
    row's timestamp lies in a reported bucket; the buckets reported after
    either classifier are 10-minute intervals of the epoch-aligned grid
    with a positive count, in ascending order and non-overlapping (a
    bucket holding no row is not reported, so they need not be
    contiguous); with no weak row, no bucket is reported and the series of
    mean intensities is empty. *)
Theorem weak_buckets_count_the_weak_rows (measurement_df : DataFrame)
    (DateTime : list Z) (strong_spectra : list nat) :
  let weak := Pd.index_not_isin (length DateTime) (list_to_set strong_spectra) in
  total_count (weak_buckets_1 DateTime strong_spectra) = length weak /\
  (forall i t, i ∈ weak -> DateTime !! i = Some t ->
     exists b, b ∈ weak_buckets_1 DateTime strong_spectra /\ (b.1.1 <= t < b.1.2)%Z) /\
  well_spaced (weak_buckets_1 DateTime strong_spectra) /\
  (weak = [] ->
   weak_buckets_1 DateTime strong_spectra = [] /\
   weak_trend_1 measurement_df DateTime strong_spectra = Some []) /\
  forall strong_spectra_approach2,
    well_spaced (weak_buckets_2 DateTime strong_spectra strong_spectra_approach2) /\
    (Pd.index_not_isin (length DateTime) (list_to_set strong_spectra_approach2) = [] ->
     weak_buckets_2 DateTime strong_spectra strong_spectra_approach2 = []).
Proof.
  intros weak. pose proof (df_DateTime_index DateTime strong_spectra) as Hidx.
  fold weak in Hidx. split; [|split; [|split; [|split]]].
  - unfold weak_buckets_1. rewrite total_count_intervals.
    destruct (count_by_period_spec
                (map (fun p => Some p.2) (df_DateTime DateTime strong_spectra)))
      as (_ & _ & ->).
    rewrite <- Hidx, length_map. generalize (df_DateTime DateTime strong_spectra).
    induction l as [|p l IH]; [done|]. cbn [map omap list_omap id length].
    by rewrite IH.
  - intros i t Hi Ht.
    assert (Hin : Some t ∈ map (fun p : nat * Z => Some p.2)
                               (df_DateTime DateTime strong_spectra)).
    { apply (list_elem_of_fmap_2' _ _ (i, t)); [|done].
      apply list_elem_of_omap. exists i. split; [done|]. by rewrite Ht. }
    apply count_by_period_keys, list_elem_of_fmap in Hin as ([k c] & Hk & Hkc).
    cbn [fst] in Hk. subst k.
    exists (Pd.floor_10min t, (Pd.floor_10min t + Pd.ten_minutes)%Z, c). split.
    + unfold weak_buckets_1, intervals.
      by apply (list_elem_of_fmap_2' _ _ (Pd.floor_10min t, c)).
    + apply floor_10min_bucket.
  - apply intervals_well_spaced.
  - intros Hweak. rewrite Hweak in Hidx.
    assert (Hdf : df_DateTime DateTime strong_spectra = [])
      by (by eapply map_eq_nil).
    unfold weak_buckets_1, weak_trend_1. by rewrite Hdf.
  - intros strong2. split; [apply intervals_well_spaced|].
    intros Hweak. unfold weak_buckets_2, measurement_weak_DateTime. by rewrite Hweak.
Qed.

(** C5, as stated, fails on two weak rows stamped 00:01 and 00:25: the
    buckets reported are 00:00-00:10 and 00:20-00:30, and the first does
    not end where the second starts. *)
Lemma weak_buckets_can_leave_a_gap :
  ~ (forall (DateTime : list Z) (strong_spectra : list nat),
       total_count (weak_buckets_1 DateTime strong_spectra)
       = length (Pd.index_not_isin (length DateTime) (list_to_set strong_spectra)) /\
       contiguous (weak_buckets_1 DateTime strong_spectra)).
Proof.
  intros H. destruct (H [60000000000; 1500000000000]%Z []) as [_ Hc].
  specialize (Hc 0%nat (0, 600000000000, 1%nat)%Z
                 (1200000000000, 1800000000000, 1%nat)%Z).
  discriminate Hc; vm_compute; reflexivity.
Qed.

(** The second aggregation (lines 472-485) takes its timestamps from the
    frame [df] of the first one, aligned on the fresh index of
    [measurement_weak]: with rows 0 and 1 strong for approach 1 and no
    row strong for approach 2, only one of the three weak rows is counted. *)
Example second_aggregation_misses_rows :
  Pd.index_not_isin 3 (list_to_set []) = [0; 1; 2]%nat /\
  weak_buckets_2 [60000000000; 240000000000; 660000000000]%Z [0; 1]%nat []
  = [(600000000000, 1200000000000, 1%nat)%Z].
Proof. vm_compute. split; reflexivity. Qed.

(** ** The scenarios of the specification, run on the script *)

(** Peak intensities 1, 1, 1, 10: the Otsu threshold is the centre of the
    first bin, 1 + 9/512; relaxed by 0.715 it falls below 1 and every row
    is strong. *)
Example scenario_peaks :
  Skimage.threshold_otsu [1; 1; 1; 10] = Some (521 # 512) /\
  approach1 [[1; 1; 1]; [1; 1; 1]; [1; 1; 1]; [10; 10; 10]]
  = Some ([0; 1; 2; 3]%nat, []).
Proof. vm_compute. split; reflexivity. Qed.

(** Reference matrix with the row 2, 3, 4: the measurement row 2, 3, 4 is
    weak and the row 2, 3, 5 is strong. In the tables of the script the
    matrices start at column position 11: the cells at position 10 (here
    7 and 8, absent from the media) are not compared. *)
Example scenario_media :
  reference_match [[Num 2; Num 3; Num 4]; [Num 2; Num 3; Num 5]] [[Num 2; Num 3; Num 4]]
  = ([1%nat], [0%nat]) /\
  approach3 (dataframe_of (ten_headers [50; 100; 200; 300] [[7; 2; 3; 4]; [8; 2; 3; 5]]))
            (dataframe_of (ten_headers [50; 100; 200; 300] [[0; 2; 3; 4]]))
  = Some ([1%nat], [0%nat]).
Proof. vm_compute. split; reflexivity. Qed.

(** Four weak rows stamped 00:01, 00:04, 00:11 and 00:25. *)
Example scenario_buckets :
  weak_buckets_1 [60000000000; 240000000000; 660000000000; 1500000000000]%Z []
  = [(0, 600000000000, 2%nat); (600000000000, 1200000000000, 1%nat);
     (1200000000000, 1800000000000, 1%nat)]%Z.
Proof. vm_compute. reflexivity. Qed.

(** Quartiles of 0, 10, 10 by linear interpolation, and the fences of the
    script. *)
Example scenario_quartiles :
  Qred <$> Pd.quantile [10; 10; 0] (1 # 4) = Some 5 /\
  Qred <$> Pd.quantile [10; 10; 0] (3 # 4) = Some 10 /\
  (fun b => (Qred b.1, Qred b.2)) <$> bounds 5 4 [10; 10; 0] = Some (-20 # 1, 30 # 1).
Proof. vm_compute. repeat split. Qed.

(** * Further properties of the script *)

(** ** Strings *)

Lemma append_String (a : ascii) (s t : string) :
  String.append (String a s) t = String a (String.append s t).
Proof. reflexivity. Qed.

Lemma append_Empty (t : string) : String.append EmptyString t = t.
Proof. reflexivity. Qed.

Lemma has_char_append (c : ascii) (s t : string) :
  has_char c (String.append s t) = has_char c s || has_char c t.
Proof.
  induction s as [|a s IH]; [done|].
  rewrite append_String. cbn [has_char]. by rewrite IH, orb_assoc.
Qed.

Lemma replace_has_char (c : ascii) (by_ s : string) :
  has_char c by_ = false -> has_char c (Str.replace c by_ s) = false.
Proof.
  intros Hby. induction s as [|a s IH]; simpl; [done|].
  destruct (Ascii.eqb a c) eqn:E.
  - by rewrite has_char_append, Hby, IH.
  - simpl. by rewrite E, IH.
Qed.

Lemma replace_keeps_absent (c c' : ascii) (by_ s : string) :
  has_char c by_ = false -> has_char c s = false ->
  has_char c (Str.replace c' by_ s) = false.
Proof.
  intros Hby. induction s as [|a s IH]; simpl; [done|].
  intros H. apply orb_false_iff in H as [Ha Hs].
  destruct (Ascii.eqb a c').
  - by rewrite has_char_append, Hby, IH.
  - simpl. by rewrite Ha, IH.
Qed.

Lemma unquote_has_no_comma (line : string) : has_char ","%char (unquote line) = false.
Proof. unfold unquote. by apply replace_has_char. Qed.

Lemma append_empty_r (s : string) : String.append s EmptyString = s.
Proof. induction s as [|a s IH]; [done | by rewrite append_String, IH]. Qed.

Lemma append_snoc (p s : string) (a : ascii) :
  String.append (String.append p (String a EmptyString)) s = String.append p (String a s).
Proof. induction p as [|b p IH]; [done | by rewrite !append_String, IH]. Qed.

Lemma prefix_single (c a : ascii) (s : string) :
  String.prefix (String c EmptyString) (String a s) = Ascii.eqb a c.
Proof.
  unfold String.prefix. destruct (ascii_dec c a) as [->|Hne].
  - rewrite Ascii.eqb_refl. by destruct s.
  - symmetry. apply Ascii.eqb_neq. congruence.
Qed.

Lemma split_from_absent (c : ascii) (piece s : string) :
  has_char c s = false ->
  Str.split_from (String c EmptyString) 0 piece s = [String.append piece s].
Proof.
  revert piece. induction s as [|a s IH]; intros piece; cbn [Str.split_from has_char].
  - intros _. by rewrite append_empty_r.
  - intros H. apply orb_false_iff in H as [Ha Hs].
    rewrite prefix_single, Ha, (IH _ Hs). by rewrite append_snoc.
Qed.

Lemma split_from_nonempty (sep : string) (skip : nat) (piece s : string) :
  Str.split_from sep skip piece s <> [].
Proof.
  revert skip piece.
  induction s as [|a s IH]; intros skip piece; cbn [Str.split_from]; [done|].
  destruct skip; [|apply IH]. destruct (String.prefix sep (String a s)); [done | apply IH].
Qed.

Lemma split_nonempty (sep s : string) (arr : list string) :
  Str.split sep s = Some arr -> arr <> [].
Proof.
  unfold Str.split. destruct sep; [done|]. intros [= <-]. apply split_from_nonempty.
Qed.

(** ** readcsv *)

Section ReadcsvFacts.

Variable float : string -> option Q.

Lemma is_float_false (v : string) : is_float float v = false <-> float v = None.
Proof. unfold is_float. destruct (float v); split; done. Qed.

Lemma first_float_from_Some (i j : nat) (arr : list string) :
  first_float_from float i arr = Some j ->
  exists k, j = (i + k)%nat /\ (k < length arr)%nat /\
            Forall (fun v => float v = None) (take k arr) /\
            exists v, arr !! k = Some v /\ is_Some (float v).
Proof.
  revert i. induction arr as [|v arr IH]; intros i; cbn [first_float_from]; [done|].
  destruct (is_float float v) eqn:E.
  - intros [= <-]. exists 0%nat. repeat split; [lia | simpl; lia | constructor |].
    exists v. split; [done|]. unfold is_float in E. destruct (float v); [by eexists | done].
  - intros H. destruct (IH _ H) as (k & -> & Hk & Hnone & Hv).
    exists (S k). repeat split; [lia | simpl; lia | | done].
    cbn [take]. constructor; [by apply is_float_false | done].
Qed.

Lemma first_float_from_None (i : nat) (arr : list string) :
  first_float_from float i arr = None -> Forall (fun v => float v = None) arr.
Proof.
  revert i. induction arr as [|v arr IH]; intros i; cbn [first_float_from]; [constructor|].
  destruct (is_float float v) eqn:E; [done|]. intros H.
  constructor; [by apply is_float_false | by eapply IH].
Qed.

Lemma startcol_of_le (arr : list string) :
  (startcol_of float arr <= length arr)%nat.
Proof.
  unfold startcol_of. destruct (first_float_from float 0 arr) as [j|] eqn:E; simpl; [|lia].
  apply first_float_from_Some in E as (k & -> & Hk & _). lia.
Qed.

Lemma startcol_of_prefix (arr : list string) :
  Forall (fun v => float v = None) (take (startcol_of float arr) arr).
Proof.
  unfold startcol_of. destruct (first_float_from float 0 arr) as [j|] eqn:E; simpl.
  - by apply first_float_from_Some in E as (k & -> & _ & Hnone & _).
  - rewrite take_0. constructor.
Qed.

Lemma assign_row_length (n : nat) (vals row : list Q) :
  assign_row n vals = Some row -> length row = n.
Proof.
  unfold assign_row. destruct (Nat.eqb (length vals) n) eqn:E.
  - intros [= <-]. by apply Nat.eqb_eq.
  - destruct vals as [|x [|y vals]]; try done. intros [= <-]. apply repeat_length.
Qed.

Lemma assign_row_cases (n : nat) (vals row : list Q) :
  assign_row n vals = Some row ->
  (length vals = n /\ row = vals) \/ (exists x, vals = [x] /\ row = repeat x n).
Proof.
  unfold assign_row. destruct (Nat.eqb (length vals) n) eqn:E.
  - intros [= <-]. left. split; [by apply Nat.eqb_eq | done].
  - destruct vals as [|x [|y vals]]; try done. intros [= <-]. right. eauto.
Qed.

Lemma read_line_Some (separator : string) (startcol n : nat) (line : string)
    (head : list string) (row : list Q) :
  read_line float separator startcol n line = Some (head, row) ->
  exists elements vals,
    Str.split separator (unquote line) = Some elements /\
    (startcol <= length elements)%nat /\ head = take startcol elements /\
    mapM float (drop startcol elements) = Some vals /\
    assign_row n vals = Some row.
Proof.
  unfold read_line.
  destruct (Str.split separator (unquote line)) as [elements|] eqn:Hel; [|done].
  cbn [mbind option_bind].
  destruct (Nat.eqb (length (take startcol elements)) startcol) eqn:E; [|done].
  apply Nat.eqb_eq in E. rewrite length_take in E.
  destruct (mapM float (drop startcol elements)) as [vals|] eqn:Hvals; [|done].
  cbn [mbind option_bind].
  destruct (assign_row n vals) as [row'|] eqn:Hrow; [|done].
  cbn [mbind option_bind]. intros [= <- <-].
  exists elements, vals. repeat split; try done; lia.
Qed.

Lemma readcsv_header_Some (file : list string) (separator : string) (d : csv) :
  readcsv_header float file separator = Some d ->
  exists headRowArray rows,
    Str.split separator (unquote (hd EmptyString file)) = Some headRowArray /\
    mapM float (drop (startcol_of float headRowArray) headRowArray)
    = Some (wavenumbers d) /\
    header_labels d
    = map Str.strip_meta (take (startcol_of float headRowArray) headRowArray) /\
    mapM (read_line float separator (startcol_of float headRowArray)
            (length (wavenumbers d))) (tl file) = Some rows /\
    header_columns d = map fst rows /\ intensities d = map snd rows.
Proof.
  unfold readcsv_header.
  destruct (Str.split separator (unquote (hd EmptyString file))) as [arr|] eqn:Harr;
    [|done].
  cbn [mbind option_bind].
  destruct (mapM float (drop (startcol_of float arr) arr)) as [wn|] eqn:Hwn; [|done].
  cbn [mbind option_bind].
  destruct (mapM (read_line float separator (startcol_of float arr) (length wn)) (tl file))
    as [rows|] eqn:Hrows; [|done].
  cbn [mbind option_bind]. intros [= <-]. cbn [wavenumbers header_labels
    header_columns intensities]. by exists arr, rows.
Qed.

Lemma header_labels_length (arr : list string) :
  length (map Str.strip_meta (take (startcol_of float arr) arr)) = startcol_of float arr.
Proof. rewrite length_map, length_take. pose proof (startcol_of_le arr). lia. Qed.

(** X1. What [readcsv] returns is a rectangular table: one row per data
    line in both blocks, as many header cells per row as header labels,
    as many intensities per row as wavenumbers, and at least one
    wavenumber. *)
Theorem readcsv_returns_a_rectangular_table (file : list string) (separator : string)
    (d : csv) :
  readcsv_header float file separator = Some d ->
  well_formed d /\
  length (intensities d) = length (tl file) /\
  (1 <= length (wavenumbers d))%nat.
Proof.
  intros H. apply readcsv_header_Some in H
    as (arr & rows & Harr & Hwn & Hlab & Hrows & Hhc & Hint).
  apply mapM_Some in Hrows.
  assert (Hn : length rows = length (tl file)) by (symmetry; by eapply Forall2_length).
  assert (Hshape : Forall (fun hr => length hr.1 = length (header_labels d) /\
                                     length hr.2 = length (wavenumbers d)) rows).
  { apply Forall_forall. intros [h r] Hin.
    apply list_elem_of_lookup in Hin as [i Hi].
    destruct (Forall2_lookup_r _ _ _ _ _ Hrows Hi) as (line & _ & Hline).
    apply read_line_Some in Hline as (els & vals & _ & Hle & -> & _ & Hrow).
    cbn [fst snd]. rewrite Hlab, header_labels_length, length_take. split; [lia|].
    by eapply assign_row_length. }
  repeat split.
  - by rewrite Hhc, Hint, !length_map.
  - rewrite Hhc. apply Forall_fmap. eapply Forall_impl; [exact Hshape|]. by intros ? [? ?].
  - rewrite Hint. apply Forall_fmap. eapply Forall_impl; [exact Hshape|]. by intros ? [? ?].
  - by rewrite Hint, length_map.
  - apply mapM_Some in Hwn. rewrite <- (Forall2_length _ _ _ Hwn), length_drop.
    pose proof (split_nonempty _ _ _ Harr) as Hne.
    unfold startcol_of. destruct (first_float_from float 0 arr) as [j|] eqn:E; simpl.
    + apply first_float_from_Some in E as (k & -> & Hk & _). lia.
    + destruct arr; [done | simpl; lia].
Qed.

(** X2. The header is split at its first numeric cell: the labels are the
    cells before it, none of which is numeric, with their META: prefix
    removed, and every cell from it on is a wavenumber (a later cell that
    is not numeric makes [readcsv] fail). *)
Theorem readcsv_splits_the_header_at_the_first_number (file : list string)
    (separator : string) (d : csv) :
  readcsv_header float file separator = Some d ->
  exists headRowArray,
    Str.split separator (unquote (hd EmptyString file)) = Some headRowArray /\
    header_labels d = map Str.strip_meta (take (length (header_labels d)) headRowArray) /\
    Forall (fun v => float v = None) (take (length (header_labels d)) headRowArray) /\
    Forall2 (fun v w => float v = Some w)
            (drop (length (header_labels d)) headRowArray) (wavenumbers d).
Proof.
  intros H. apply readcsv_header_Some in H as (arr & rows & Harr & Hwn & Hlab & _).
  exists arr. rewrite Hlab, header_labels_length. repeat split; try done.
  - apply startcol_of_prefix.
  - by apply mapM_Some.
Qed.

(** X3. Without a numeric cell in the header row (an empty file
    included), [readcsv] fails: the axis would start at column 0, whose
    cell is not a number. *)
Theorem readcsv_needs_a_numeric_header_cell (file : list string) (separator : string) :
  (forall headRowArray,
     Str.split separator (unquote (hd EmptyString file)) = Some headRowArray ->
     Forall (fun v => float v = None) headRowArray) ->
  readcsv_header float file separator = None.
Proof.
  intros Hnone. destruct (readcsv_header float file separator) as [d|] eqn:H; [|done].
  apply readcsv_header_Some in H as (arr & rows & Harr & Hwn & _).
  specialize (Hnone arr Harr). apply mapM_Some in Hwn.
  pose proof (split_nonempty _ _ _ Harr) as Hne.
  assert (Hs : startcol_of float arr = 0%nat).
  { unfold startcol_of. destruct (first_float_from float 0 arr) as [j|] eqn:E; [|done].
    apply first_float_from_Some in E as (k & -> & _ & _ & v & Hv & [x Hx]).
    rewrite Forall_forall in Hnone. rewrite Hnone in Hx; [done|].
    by eapply list_elem_of_lookup_2. }
  rewrite Hs, drop_0 in Hwn. destruct Hwn as [|v w arr' wn Hv _]; [done|].
  apply Forall_cons in Hnone as [Hnone _]. congruence.
Qed.

Lemma split_comma (line : string) :
  Str.split "," (unquote line) = Some [unquote line].
Proof.
  unfold Str.split. f_equal.
  apply (split_from_absent ","%char EmptyString), unquote_has_no_comma.
Qed.

(** X4. With the separator [","] no row is ever split, since every comma
    has been replaced by a dot before the split: [readcsv] can only
    return a table without header columns and with a single wavenumber,
    the whole header line read as one number. *)
Theorem comma_separator_never_splits (file : list string) (d : csv) :
  readcsv_header float file "," = Some d ->
  header_labels d = [] /\
  Forall (fun h => h = []) (header_columns d) /\
  exists w, float (unquote (hd EmptyString file)) = Some w /\ wavenumbers d = [w].
Proof.
  intros H. apply readcsv_header_Some in H
    as (arr & rows & Harr & Hwn & Hlab & Hrows & Hhc & _).
  rewrite split_comma in Harr. injection Harr as <-.
  assert (Hs : startcol_of float [unquote (hd EmptyString file)] = 0%nat).
  { unfold startcol_of. cbn [first_float_from].
    by destruct (is_float float (unquote (hd EmptyString file))). }
  rewrite Hs in *. cbn [take map drop] in *. split; [done|]. split.
  - rewrite Hhc. apply Forall_fmap, Forall_forall. intros [h r] Hin.
    apply mapM_Some in Hrows. apply list_elem_of_lookup in Hin as [i Hi].
    destruct (Forall2_lookup_r _ _ _ _ _ Hrows Hi) as (line & _ & Hline).
    by apply read_line_Some in Hline as (els & vals & _ & _ & -> & _).
  - apply mapM_Some in Hwn. inversion Hwn as [|v w ? wn Hv Hrest]; subst.
    inversion Hrest; subst. eauto.
Qed.

(** X5. A data line is only accepted with as many cells as the header row,
    or with exactly one cell after the header columns: whenever [readcsv]
    returns, every data line has one of these two lengths. *)
Theorem readcsv_accepts_two_row_lengths (file : list string) (separator : string)
    (d : csv) (line : string) (elements : list string) :
  readcsv_header float file separator = Some d ->
  line ∈ tl file ->
  Str.split separator (unquote line) = Some elements ->
  length elements = (length (header_labels d) + length (wavenumbers d))%nat \/
  length elements = S (length (header_labels d)).
Proof.
  intros H Hin Hel. apply readcsv_header_Some in H
    as (arr & rows & Harr & Hwn & Hlab & Hrows & _).
  apply mapM_Some in Hrows. apply list_elem_of_lookup in Hin as [i Hi].
  destruct (Forall2_lookup_l _ _ _ _ _ Hrows Hi) as ([h r] & _ & Hline).
  apply read_line_Some in Hline as (els & vals & Hel' & Hle & _ & Hvals & Hrow).
  rewrite Hel in Hel'. injection Hel' as <-.
  apply mapM_Some, Forall2_length in Hvals. rewrite length_drop in Hvals.
  rewrite Hlab, header_labels_length.
  apply assign_row_cases in Hrow as [[Hn _]|(x & -> & _)]; simpl in *; lia.
Qed.

(** X6. A data line with exactly one cell after the header columns is not
    refused for its length: its single intensity is repeated over all
    the wavenumbers of the row. *)
Theorem single_intensity_fills_the_row (file : list string) (separator : string)
    (d : csv) (i : nat) (line : string) (elements : list string) :
  readcsv_header float file separator = Some d ->
  tl file !! i = Some line ->
  Str.split separator (unquote line) = Some elements ->
  length elements = S (length (header_labels d)) ->
  exists x, last elements ≫= float = Some x /\
            intensities d !! i = Some (repeat x (length (wavenumbers d))).
Proof.
  intros H Hi Hel Hlen. apply readcsv_header_Some in H
    as (arr & rows & Harr & Hwn & Hlab & Hrows & _ & Hint).
  apply mapM_Some in Hrows.
  destruct (Forall2_lookup_l _ _ _ _ _ Hrows Hi) as ([h r] & Hr & Hline).
  apply read_line_Some in Hline as (els & vals & Hel' & Hle & _ & Hvals & Hrow).
  rewrite Hel in Hel'. injection Hel' as <-.
  rewrite Hlab, header_labels_length in Hlen.
  assert (Hd : exists e, drop (startcol_of float arr) elements = [e]).
  { destruct (drop (startcol_of float arr) elements) as [|e [|e' l]] eqn:Hd.
    - apply (f_equal length) in Hd. rewrite length_drop in Hd. simpl in Hd. lia.
    - eauto.
    - apply (f_equal length) in Hd. rewrite length_drop in Hd. simpl in Hd. lia. }
  destruct Hd as [e Hd].
  assert (He : elements = take (startcol_of float arr) elements ++ [e])
    by (by rewrite <- Hd, take_drop).
  rewrite Hd in Hvals. cbn [mapM] in Hvals.
  destruct (float e) as [x|] eqn:Hx; [|done]. cbn [mbind option_bind mret option_ret] in Hvals.
  injection Hvals as <-. exists x. split.
  - rewrite He, last_snoc. exact Hx.
  - rewrite Hint, list_lookup_fmap, Hr. cbn [fmap option_fmap option_map snd]. f_equal.
    apply assign_row_cases in Hrow as [[Hn ->]|(y & [= <-] & ->)]; [|done].
    simpl in Hn. by rewrite <- Hn.
Qed.

End ReadcsvFacts.

Lemma readcsv_returns_a_rectangular_table_witness :
  let d := {| header_labels := ["DateTime"; "Name"]%string;
              header_columns := [["t0"; "a"]; ["t1"; "b"]]%string;
              wavenumbers := [100; 401 # 2; 300];
              intensities := [[1; 2; 3]; [9 # 2; 9 # 2; 9 # 2]] |} in
  well_formed d /\ length (intensities d) = 2%nat /\ (1 <= length (wavenumbers d))%nat.
Proof.
  apply (readcsv_returns_a_rectangular_table plain_decimal
           ["META:DateTime;Name;100;200,5;300"; "t0;'a';1;2;3"; "t1;b;4,5"]%string ";").
  vm_compute. reflexivity.
Defined.

Lemma readcsv_splits_the_header_at_the_first_number_witness :
  exists headRowArray,
    Str.split ";" (unquote "META:DateTime;Name;100;200,5;300") = Some headRowArray /\
    ["DateTime"; "Name"]%string = map Str.strip_meta (take 2 headRowArray) /\
    Forall (fun v => plain_decimal v = None) (take 2 headRowArray) /\
    Forall2 (fun v w => plain_decimal v = Some w) (drop 2 headRowArray)
            [100; 401 # 2; 300].
Proof.
  apply (readcsv_splits_the_header_at_the_first_number plain_decimal
           ["META:DateTime;Name;100;200,5;300"; "t0;'a';1;2;3"; "t1;b;4,5"]%string ";"
           {| header_labels := ["DateTime"; "Name"]%string;
              header_columns := [["t0"; "a"]; ["t1"; "b"]]%string;
              wavenumbers := [100; 401 # 2; 300];
              intensities := [[1; 2; 3]; [9 # 2; 9 # 2; 9 # 2]] |}).
  vm_compute. reflexivity.
Defined.

Lemma readcsv_needs_a_numeric_header_cell_witness :
  readcsv_header plain_decimal ["DateTime;Name"; "t0;a"]%string ";" = None.
Proof.
  apply readcsv_needs_a_numeric_header_cell.
  intros headRowArray H. vm_compute in H. injection H as <-. repeat constructor.
Defined.

Lemma comma_separator_never_splits_witness :
  @nil string = [] /\
  Forall (fun h : list string => h = []) [[]] /\
  exists w, plain_decimal (unquote "100,5") = Some w /\ [201 # 2] = [w].
Proof.
  apply (comma_separator_never_splits plain_decimal ["100,5"; "7"]%string
           {| header_labels := []; header_columns := [[]];
              wavenumbers := [201 # 2]; intensities := [[7]] |}).
  vm_compute. reflexivity.
Defined.

Lemma readcsv_accepts_two_row_lengths_witness :
  length ["t1"; "b"; "4.5"]%string = (2 + 3)%nat \/
  length ["t1"; "b"; "4.5"]%string = 3%nat.
Proof.
  apply (readcsv_accepts_two_row_lengths plain_decimal
           ["META:DateTime;Name;100;200,5;300"; "t0;'a';1;2;3"; "t1;b;4,5"]%string ";"
           {| header_labels := ["DateTime"; "Name"]%string;
              header_columns := [["t0"; "a"]; ["t1"; "b"]]%string;
              wavenumbers := [100; 401 # 2; 300];
              intensities := [[1; 2; 3]; [9 # 2; 9 # 2; 9 # 2]] |} "t1;b;4,5").
  - vm_compute. reflexivity.
  - cbn [tl]. apply list_elem_of_further, list_elem_of_here.
  - vm_compute. reflexivity.
Defined.

Lemma single_intensity_fills_the_row_witness :
  exists x, last ["t1"; "b"; "4.5"]%string ≫= plain_decimal = Some x /\
            [[1; 2; 3]; [9 # 2; 9 # 2; 9 # 2]] !! 1%nat = Some (repeat x 3).
Proof.
  apply (single_intensity_fills_the_row plain_decimal
           ["META:DateTime;Name;100;200,5;300"; "t0;'a';1;2;3"; "t1;b;4,5"]%string ";"
           {| header_labels := ["DateTime"; "Name"]%string;
              header_columns := [["t0"; "a"]; ["t1"; "b"]]%string;
              wavenumbers := [100; 401 # 2; 300];
              intensities := [[1; 2; 3]; [9 # 2; 9 # 2; 9 # 2]] |} 1 "t1;b;4,5").
  - vm_compute. reflexivity.
  - reflexivity.
  - vm_compute. reflexivity.
  - reflexivity.
Defined.

(** ** The frames selected after approach 1 *)

Lemma index_not_isin_filter (f : nat -> bool) (n : nat) :
  Pd.index_not_isin n (list_to_set (List.filter f (seq 0 n)))
  = List.filter (fun i => negb (f i)) (seq 0 n).
Proof.
  unfold Pd.index_not_isin. apply filter_ext_in. intros i Hi. f_equal.
  apply eq_true_iff_eq.
  rewrite bool_decide_eq_true, elem_of_list_to_set, list_elem_of_In, filter_In. tauto.
Qed.

Lemma index_isin_filter (f : nat -> bool) (n : nat) :
  Pd.index_isin n (list_to_set (List.filter f (seq 0 n))) = List.filter f (seq 0 n).
Proof.
  unfold Pd.index_isin. apply filter_ext_in. intros i Hi.
  apply eq_true_iff_eq.
  rewrite bool_decide_eq_true, elem_of_list_to_set, list_elem_of_In, filter_In. tauto.
Qed.

(** X7. After the threshold classifier, the three frames the script
    selects by index membership hold the rows one expects:
    [measurement_df[~index.isin(set(strong_spectra))]], on which the
    temporal analysis runs, has exactly the rows of [weak_spectra], in
    order, and the frames selected with [set(weak_spectra)] and
    [set(strong_spectra)] have the rows of [weak_spectra] and of
    [strong_spectra]. *)
Theorem frames_after_approach1_hold_the_classified_rows (r : Q) (a : list (list Q))
    (strong_spectra weak_spectra : list nat) :
  threshold_classifier r a = Some (strong_spectra, weak_spectra) ->
  Pd.index_not_isin (length a) (list_to_set strong_spectra) = weak_spectra /\
  Pd.index_isin (length a) (list_to_set weak_spectra) = weak_spectra /\
  Pd.index_isin (length a) (list_to_set strong_spectra) = strong_spectra.
Proof.
  intros H. apply threshold_classifier_inv in H as (peaks & t & Hp & _ & [= -> ->]).
  rewrite <- (max_axis1_length _ _ Hp).
  unfold strong_indices_relaxed, weak_indices_relaxed. repeat split.
  - apply (index_not_isin_filter (fun i => Qle_bool (t * r) (nth i peaks 0))).
  - apply (index_isin_filter (fun i => Np.Qltb (nth i peaks 0) (t * r))).
  - apply (index_isin_filter (fun i => Qle_bool (t * r) (nth i peaks 0))).
Qed.

Lemma frames_after_approach1_hold_the_classified_rows_witness :
  Pd.index_not_isin 3 (list_to_set [0; 1]%nat) = [2%nat] /\
  Pd.index_isin 3 (list_to_set [2%nat]) = [2%nat] /\
  Pd.index_isin 3 (list_to_set [0; 1]%nat) = [0; 1]%nat.
Proof.
  apply (frames_after_approach1_hold_the_classified_rows relax_factor [[10]; [10]; [0]]).
  vm_compute. reflexivity.
Defined.

(** ** The Otsu threshold lies below the largest peak *)

Lemma bin_edge_le_hi (lo hi : Q) (k : nat) :
  lo <= hi -> (k <= Skimage.nbins)%nat -> Np.bin_edge Skimage.nbins lo hi k <= hi.
Proof.
  intros Hlohi Hk. unfold Np.bin_edge, Qdiv.
  change (/ inject_Z (Z.of_nat Skimage.nbins)) with (1 # 256).
  assert (Hk0 : 0 <= inject_Z (Z.of_nat k)).
  { change 0 with (inject_Z 0). rewrite <- Zle_Qle. lia. }
  assert (Hk1 : inject_Z (Z.of_nat k) <= 256).
  { change 256 with (inject_Z 256). rewrite <- Zle_Qle. unfold Skimage.nbins in Hk. lia. }
  nra.
Qed.

Lemma otsu_le_max (x : Q) (peaks : list Q) (t : Q) :
  Skimage.threshold_otsu (x :: peaks) = Some t -> t <= fold_left Np.maximum peaks x.
Proof.
  unfold Skimage.threshold_otsu.
  destruct (fold_maximum peaks x) as (_ & Hge & _).
  destruct (forallb _ _); [by intros [= <-]|].
  cbn [Np.min Np.max mbind option_bind]. intros Ht.
  apply list_elem_of_lookup_2, list_elem_of_fmap in Ht as (k & -> & Hk).
  apply elem_of_seq in Hk.
  destruct (fold_minimum peaks x) as [_ Hle].
  assert (Hlohi : fold_left Np.minimum peaks x <= fold_left Np.maximum peaks x)
    by (by eapply Qle_trans).
  rewrite Qred_correct. unfold Qdiv. change (/ 2) with (1 # 2).
  pose proof (bin_edge_le_hi _ _ k Hlohi ltac:(lia)).
  pose proof (bin_edge_le_hi _ _ (S k) Hlohi ltac:(lia)).
  nra.
Qed.

(** X8. When no peak intensity is negative, the threshold classifier
    never returns an empty strong set: every row whose peak is the
    largest of all is strong. *)
Theorem the_largest_peak_is_strong (a : list (list Q)) (peaks : list Q)
    (strong weak : list nat) (i : nat) (p : Q) :
  approach1 a = Some (strong, weak) ->
  Np.max_axis1 a = Some peaks ->
  Forall (fun q => 0 <= q) peaks ->
  peaks !! i = Some p -> (forall q, q ∈ peaks -> q <= p) ->
  i ∈ strong.
Proof.
  intros H Hp Hpos Hi Hmax. unfold approach1 in H.
  apply threshold_classifier_inv in H as (peaks' & t & Hp' & Ht & [= -> ->]).
  rewrite Hp in Hp'. injection Hp' as <-.
  apply strong_indices_relaxed_elem. exists p. split; [done|].
  pose proof (otsu_of_nonnegative_peaks _ _ Hpos Ht) as Ht0.
  destruct peaks as [|x peaks]; [done|].
  pose proof (otsu_le_max _ _ _ Ht) as Hle.
  assert (Hhi : fold_left Np.maximum peaks x <= p).
  { apply Hmax. destruct (fold_maximum peaks x) as ([->|Hin] & _ & _).
    - apply list_elem_of_here.
    - by apply list_elem_of_further. }
  unfold relax_factor. nra.
Qed.

Lemma the_largest_peak_is_strong_witness : 2%nat ∈ [1; 2]%nat.
Proof.
  apply (the_largest_peak_is_strong [[0; 0]; [2; 8]; [9; 3]] [0; 8; 9] [1; 2]%nat [0%nat]
           2 9).
  - vm_compute. reflexivity.
  - reflexivity.
  - repeat constructor; vm_compute; discriminate.
  - reflexivity.
  - intros q Hq. repeat (apply elem_of_cons in Hq as [->|Hq]); try (vm_compute; discriminate).
    by apply elem_of_nil in Hq.
Defined.

(** ** Approach 2: rows beyond and within the fences *)

Lemma float_column_length (v : nat) (df : DataFrame) (col : list Q) :
  Pd.float_column v df = Some col -> length col = Pd.len df.
Proof.
  unfold Pd.float_column, Pd.len. rewrite mapM_Some. intros H.
  symmetry. by eapply Forall2_length.
Qed.

(** X9. Whatever the multipliers, a row holding a value strictly outside
    the fences of its column (a column from position 10 on) is strong,
    and every value of a weak row lies within the fences of its column. *)
Theorem rows_outside_a_fence_are_strong (k_lo k_hi : Q) (df : DataFrame)
    (s w : list nat) (v i : nat) (col : list Q) (lb ub x : Q) :
  outlier_classifier k_lo k_hi df = Some (s, w) ->
  v ∈ wave_num df -> Pd.float_column v df = Some col ->
  bounds k_lo k_hi col = Some (lb, ub) -> col !! i = Some x ->
  ((x < lb \/ ub < x) -> i ∈ s) /\ (i ∈ w -> lb <= x <= ub).
Proof.
  intros H Hv Hcol Hb Hx.
  assert (Hi : (i < Pd.len df)%nat).
  { rewrite <- (float_column_length _ _ _ Hcol). by eapply lookup_lt_Some. }
  assert (Hout : x < lb \/ ub < x -> i ∈ s).
  { intros Hlt. apply (outlier_classifier_elem _ _ _ _ _ H). split; [done|].
    exists v. split; [done|]. split; exists col; (split; [done|]).
    - unfold has_outlier. rewrite Hb. apply existsb_exists. exists x. split.
      + by eapply list_elem_of_In, list_elem_of_lookup_2.
      + rewrite orb_true_iff, !Qltb_lt. done.
    - apply filtered_index_elem. exists lb, ub, x. repeat split; try done.
      destruct Hlt; [left | right]; by apply Qlt_le_weak. }
  split; [done|]. intros Hw.
  apply (outlier_classifier_elem _ _ _ _ _ H) in Hw as [_ Hns].
  split; apply Qnot_lt_le; intros Hlt; apply Hns, Hout; auto.
Qed.

Lemma rows_outside_a_fence_are_strong_witness :
  ((7 < -320 # 64 \/ 320 # 64 < 7) -> 8%nat ∈ [7; 8]%nat) /\
  (8%nat ∈ [0; 1; 2; 3; 4; 5; 6]%nat -> -320 # 64 <= 7 <= 320 # 64).
Proof.
  apply (rows_outside_a_fence_are_strong 5 4
           (dataframe_of (one_wavenumber [0; 0; 0; 0; 0; 0; 1; 5; 7]))
           [7; 8]%nat [0; 1; 2; 3; 4; 5; 6]%nat 10 8 [0; 0; 0; 0; 0; 0; 1; 5; 7]).
  - vm_compute. reflexivity.
  - apply list_elem_of_here.
  - reflexivity.
  - vm_compute. reflexivity.
  - reflexivity.
Defined.

(** ** Approach 2 and the number of header columns *)

Lemma dataframe_of_rows (d : csv) :
  well_formed d ->
  Forall (fun row => exists h r, row = map Str h ++ map Num r /\
                       length h = length (header_labels d) /\
                       length r = length (wavenumbers d))
         (values (dataframe_of d)).
Proof.
  intros (Hlen & Hh & Hr). unfold dataframe_of, Pd.concat_axis1. cbn [values].
  revert Hlen Hh Hr. generalize (header_columns d) (intensities d).
  induction l as [|h hs IH]; intros [|r rs] Hlen Hh Hr; simpl in Hlen; try done.
  apply Forall_cons in Hh as [Hh1 Hh]. apply Forall_cons in Hr as [Hr1 Hr].
  cbn [zip_with]. constructor; [by exists h, r | apply IH; [lia | done | done]].
Qed.

Lemma outlier_classifier_None (k_lo k_hi : Q) (df : DataFrame) :
  outlier_classifier k_lo k_hi df = None <->
  ~ Forall (fun w => is_Some (Pd.float_column w df)) (wave_num df).
Proof.
  rewrite (strong_spectra_approach2_total k_lo k_hi df). unfold outlier_classifier.
  destruct (strong_spectra_approach2 k_lo k_hi df) as [strong|]; cbn [mbind option_bind].
  - split; [done|]. intros H. destruct H. by eexists.
  - split; [|done]. intros _ [? ?]. done.
Qed.

(** X10. On a table as [readcsv] returns it, the outlier classifier
    fails exactly when the table has more than ten header columns and at
    least one row: column position 10 then holds strings, whose quantile
    raises. With at most ten header columns it always returns. *)
Theorem approach2_fails_on_an_eleventh_header_column (k_lo k_hi : Q) (d : csv) :
  well_formed d ->
  (outlier_classifier k_lo k_hi (dataframe_of d) = None <->
   (10 < length (header_labels d))%nat /\ intensities d <> []).
Proof.
  intros Hwf. pose proof (dataframe_of_rows d Hwf) as Hrows.
  assert (Hcols : length (columns (dataframe_of d))
                  = (length (header_labels d) + length (wavenumbers d))%nat).
  { unfold dataframe_of, Pd.concat_axis1. cbn [columns].
    by rewrite length_app, !length_map. }
  assert (Hvals : length (values (dataframe_of d)) = length (intensities d)).
  { apply len_dataframe_of. by destruct Hwf. }
  rewrite outlier_classifier_None. split.
  - intros Hnot.
    destruct (decide (10 < length (header_labels d))%nat) as [Hgt|Hle].
    + split; [done|]. intros Hnil. apply Hnot, Forall_forall. intros w _.
      unfold Pd.float_column.
      rewrite Hnil in Hvals. destruct (values (dataframe_of d)); [by eexists | done].
    + exfalso. apply Hnot, Forall_forall. intros w Hw.
      unfold wave_num in Hw. apply elem_of_seq in Hw. rewrite Hcols in Hw.
      apply mapM_is_Some_2. eapply Forall_impl; [exact Hrows|].
      intros row (h & r & -> & Hh & Hr). unfold compose.
      rewrite lookup_app_r by (rewrite length_map; lia).
      rewrite length_map, list_lookup_fmap.
      destruct (lookup_lt_is_Some_2 r (w - length h)) as [x Hx]; [lia|].
      rewrite Hx. by eexists.
  - intros [Hgt Hne] Hall.
    assert (H10 : 10%nat ∈ wave_num (dataframe_of d)).
    { unfold wave_num. apply elem_of_seq. rewrite Hcols. lia. }
    rewrite Forall_forall in Hall. destruct (Hall _ H10) as [col Hcol].
    unfold Pd.float_column in Hcol.
    destruct (values (dataframe_of d)) as [|row rows] eqn:E.
    { simpl in Hvals. destruct (intensities d); done. }
    apply Forall_cons in Hrows as [(h & r & -> & Hh & _) _].
    apply mapM_Some in Hcol. inversion Hcol as [|? y ? ? Hy _]; subst.
    rewrite lookup_app_l in Hy by (rewrite length_map; lia).
    rewrite list_lookup_fmap in Hy.
    destruct (lookup_lt_is_Some_2 h 10) as [c Hc]; [lia|].
    by rewrite Hc in Hy.
Qed.

Lemma approach2_fails_on_an_eleventh_header_column_witness :
  outlier_classifier 5 4 (dataframe_of (ten_headers [100] [[1]; [2]])) = None <->
  (10 < 10)%nat /\ [[1]; [2]] <> [].
Proof.
  apply (approach2_fails_on_an_eleventh_header_column 5 4 (ten_headers [100] [[1]; [2]])).
  repeat split; repeat constructor.
Defined.

(** ** Approach 3: tables that match entirely, and larger media *)

Lemma cell_eqb_refl (v : cell) : cell_eqb v v = true.
Proof.
  destruct v as [s|x]; simpl; [apply String.eqb_refl | by apply Qeq_bool_iff].
Qed.

Lemma not_matching_false (measurement media : list (list cell)) (i : nat) :
  not_matching measurement media !! i = Some false <->
  exists row, measurement !! i = Some row /\ forall v, v ∈ row -> appears_in media v.
Proof.
  rewrite not_matching_lookup. split.
  - intros (row & Hrow & Hn). exists row. split; [done|].
    symmetry in Hn. apply negb_false_iff in Hn. rewrite forallb_forall in Hn.
    intros v Hv. apply isin_appears_in, Hn. by apply list_elem_of_In.
  - intros (row & Hrow & Hall). exists row. split; [done|]. symmetry.
    apply negb_false_iff, forallb_forall. intros v Hv.
    apply isin_appears_in, Hall. by apply list_elem_of_In.
Qed.

Lemma reference_match_weak_elem (measurement media : list (list cell)) (i : nat) :
  i ∈ (reference_match measurement media).2 <->
  exists row, measurement !! i = Some row /\ forall v, v ∈ row -> appears_in media v.
Proof.
  unfold reference_match. cbn [snd].
  rewrite boolean_index_elem, list_lookup_fmap, <- not_matching_false.
  destruct (not_matching measurement media !! i) as [[|]|];
    cbn [fmap option_fmap option_map negb]; split; congruence.
Qed.

Lemma reference_match_strong_elem (measurement media : list (list cell)) (i : nat) :
  i ∈ (reference_match measurement media).1 <->
  (i < length measurement)%nat /\ i ∉ (reference_match measurement media).2.
Proof.
  destruct (reference_match_partition measurement media) as [Hcover Hdisj].
  split.
  - intros Hi. split.
    + assert (Hin : i ∈ (set_seq 0 (length measurement) : gset nat)).
      { rewrite <- Hcover. apply elem_of_union. left. by apply elem_of_list_to_set. }
      apply elem_of_set_seq in Hin. lia.
    + intros Hw. apply (Hdisj i); by apply elem_of_list_to_set.
  - intros [Hlt Hnw].
    assert (Hin : i ∈ (set_seq 0 (length measurement) : gset nat))
      by (apply elem_of_set_seq; lia).
    rewrite <- Hcover in Hin. apply elem_of_union in Hin as [Hin|Hin].
    + by apply elem_of_list_to_set in Hin.
    + by apply elem_of_list_to_set in Hin.
Qed.

Lemma boolean_index_all_false (m : list bool) :
  Forall (fun b => b = false) m ->
  Pd.boolean_index m = [] /\ Pd.boolean_index (map negb m) = seq 0 (length m).
Proof.
  intros H. unfold Pd.boolean_index. rewrite length_map. split.
  - apply filter_none. intros i Hi. apply in_seq in Hi.
    destruct (lookup_lt_is_Some_2 m i) as [b Hb]; [lia|].
    rewrite (nth_lookup_Some _ _ false _ Hb).
    rewrite Forall_forall in H. apply H. by eapply list_elem_of_lookup_2.
  - apply filter_all. intros i Hi. apply in_seq in Hi.
    rewrite negb_mask_nth by lia.
    destruct (lookup_lt_is_Some_2 m i) as [b Hb]; [lia|].
    rewrite (nth_lookup_Some _ _ false _ Hb).
    rewrite Forall_forall in H. rewrite (H b); [done|]. by eapply list_elem_of_lookup_2.
Qed.

Lemma reference_match_all_weak (measurement media : list (list cell)) :
  (forall row v, row ∈ measurement -> v ∈ row -> appears_in media v) ->
  reference_match measurement media = ([], seq 0 (length measurement)).
Proof.
  intros H. unfold reference_match.
  destruct (boolean_index_all_false (not_matching measurement media)) as [H1 H2].
  - apply Forall_forall. intros b Hb. apply list_elem_of_lookup in Hb as [i Hi].
    apply not_matching_lookup in Hi as (row & Hrow & ->).
    apply negb_false_iff, forallb_forall. intros v Hv.
    apply isin_appears_in, (H row); [by eapply list_elem_of_lookup_2 |].
    by apply list_elem_of_In.
  - rewrite H1, H2. unfold not_matching. by rewrite length_map.
Qed.

Lemma len_iloc (k : nat) (df : DataFrame) :
  length (values (Pd.iloc_cols_from k df)) = Pd.len df.
Proof. unfold Pd.iloc_cols_from, Pd.len. cbn [values]. by rewrite length_map. Qed.

(** X11. When every measurement row (from column position 11 on) is also
    a row of the media table, and in particular when the media table is
    the measurement table itself, every row is weak and none is strong. *)
Theorem rows_of_the_media_are_all_weak (measurement_df media_df : DataFrame) :
  (forall row, row ∈ values (Pd.iloc_cols_from 11 measurement_df) ->
               row ∈ values (Pd.iloc_cols_from 11 media_df)) ->
  approach3 measurement_df media_df = Some ([], seq 0 (Pd.len measurement_df)).
Proof.
  intros H. rewrite approach3_reference_match, reference_match_all_weak, len_iloc; [done|].
  intros row v Hrow Hv. exists row, v. split; [by apply H|]. split; [done|].
  apply cell_eqb_refl.
Qed.

Lemma rows_of_the_media_are_all_weak_witness :
  approach3 (dataframe_of (ten_headers [50; 100; 200] [[7; 2; 3]; [8; 2; 5]]))
            (dataframe_of (ten_headers [50; 100; 200] [[7; 2; 3]; [8; 2; 5]]))
  = Some ([], [0; 1]%nat).
Proof.
  apply (rows_of_the_media_are_all_weak
           (dataframe_of (ten_headers [50; 100; 200] [[7; 2; 3]; [8; 2; 5]]))).
  intros row Hrow. exact Hrow.
Defined.

(** X12. A table with at most 11 columns leaves nothing to compare from
    column position 11 on: every row is weak, whatever the media table. *)
Theorem narrow_tables_are_all_weak (measurement_df media_df : DataFrame) :
  Forall (fun row => (length row <= 11)%nat) (values measurement_df) ->
  approach3 measurement_df media_df = Some ([], seq 0 (Pd.len measurement_df)).
Proof.
  intros H. rewrite approach3_reference_match, reference_match_all_weak, len_iloc; [done|].
  intros row v Hrow Hv. unfold Pd.iloc_cols_from in Hrow. cbn [values] in Hrow.
  apply list_elem_of_fmap in Hrow as (row0 & -> & Hrow0).
  rewrite Forall_forall in H. specialize (H _ Hrow0).
  rewrite drop_ge in Hv by lia. by apply elem_of_nil in Hv.
Qed.

Lemma narrow_tables_are_all_weak_witness :
  approach3 (dataframe_of (one_wavenumber [1; 2; 3]))
            (dataframe_of (one_wavenumber [9])) = Some ([], [0; 1; 2]%nat).
Proof.
  apply (narrow_tables_are_all_weak (dataframe_of (one_wavenumber [1; 2; 3]))).
  repeat constructor.
Defined.

(** X13. Adding rows to the media table can only move measurement rows
    from strong to weak: with a media matrix that contains every row of
    another, the weak set contains the other weak set and the strong set
    is contained in the other strong set. *)
Theorem more_media_rows_make_more_weak (measurement media media' : list (list cell)) :
  (forall row, row ∈ media -> row ∈ media') ->
  (reference_match measurement media).2 ⊆ (reference_match measurement media').2 /\
  (reference_match measurement media').1 ⊆ (reference_match measurement media).1.
Proof.
  intros H.
  assert (Hw : forall i, i ∈ (reference_match measurement media).2 ->
                         i ∈ (reference_match measurement media').2).
  { intros i. rewrite !reference_match_weak_elem. intros (row & Hrow & Hall).
    exists row. split; [done|]. intros v Hv.
    destruct (Hall v Hv) as (r & w & Hr & Hwr & Heq). exists r, w. auto. }
  split; [exact Hw|]. intros i. rewrite !reference_match_strong_elem.
  intros [Hlt Hn]. split; [done|]. intros Hi. apply Hn, Hw, Hi.
Qed.

Lemma more_media_rows_make_more_weak_witness :
  (reference_match [[Num 2; Num 3]; [Num 2; Num 5]] [[Num 2; Num 3]]).2
  ⊆ (reference_match [[Num 2; Num 3]; [Num 2; Num 5]] [[Num 2; Num 3]; [Num 5]]).2 /\
  (reference_match [[Num 2; Num 3]; [Num 2; Num 5]] [[Num 2; Num 3]; [Num 5]]).1
  ⊆ (reference_match [[Num 2; Num 3]; [Num 2; Num 5]] [[Num 2; Num 3]]).1.
Proof.
  apply more_media_rows_make_more_weak.
  intros row Hrow. apply elem_of_cons in Hrow as [->|Hrow].
  - apply list_elem_of_here.
  - by apply elem_of_nil in Hrow.
Defined.

(** ** The count of each bucket *)

Lemma count_of_count_value (k k' : Z) (acc : list (Z * nat)) :
  count_of k (Pd.count_value k' acc)
  = (count_of k acc + if Z.eqb k' k then 1 else 0)%nat.
Proof.
  unfold count_of. induction acc as [|[k0 c] acc IH]; cbn [Pd.count_value].
  - simpl. destruct (Z.eqb k' k); lia.
  - destruct (Z.eqb k' k0) eqn:E.
    + apply Z.eqb_eq in E. subst k0. simpl. destruct (Z.eqb k' k); lia.
    + cbn [sum_list_with]. rewrite IH. cbn [fst snd]. lia.
Qed.

Lemma count_of_tally_from (k : Z) (s : list (option Z)) (acc : list (Z * nat)) :
  count_of k (fold_left (fun acc o => match o with
                                      | Some k => Pd.count_value k acc
                                      | None => acc
                                      end) s acc)
  = (count_of k acc + occurrences k s)%nat.
Proof.
  unfold occurrences. revert acc.
  induction s as [|[t|] s IH]; intros acc; cbn [fold_left List.filter].
  - simpl. lia.
  - rewrite IH, count_of_count_value. destruct (Z.eqb t k); simpl; lia.
  - apply IH.
Qed.

Lemma count_of_perm (k : Z) (l l' : list (Z * nat)) :
  l ≡ₚ l' -> count_of k l = count_of k l'.
Proof. intros H. unfold count_of. by rewrite H. Qed.

Lemma count_of_NoDup (k : Z) (c : nat) (l : list (Z * nat)) :
  NoDup (map fst l) -> (k, c) ∈ l -> count_of k l = c.
Proof.
  unfold count_of. induction l as [|[k0 c0] l IH]; intros Hnd Hin.
  - by apply elem_of_nil in Hin.
  - cbn [map fst] in Hnd. apply NoDup_cons in Hnd as [Hk0 Hnd].
    cbn [sum_list_with fst snd]. apply elem_of_cons in Hin as [[= <- <-]|Hin].
    + rewrite Z.eqb_refl.
      assert (Hz : sum_list_with (fun kc : Z * nat => if Z.eqb kc.1 k then kc.2 else 0%nat) l
                   = 0%nat); [|lia].
      clear IH Hnd. induction l as [|[k1 c1] l IHl]; [done|].
      cbn [sum_list_with fst snd]. cbn [map fst] in Hk0.
      apply not_elem_of_cons in Hk0 as [Hne Hk0].
      destruct (Z.eqb k1 k) eqn:E; [apply Z.eqb_eq in E; congruence|].
      by rewrite IHl.
    + rewrite (IH Hnd Hin).
      destruct (Z.eqb k0 k) eqn:E; [|lia]. apply Z.eqb_eq in E. subst k0.
      exfalso. apply Hk0. by apply (list_elem_of_fmap_2' fst l (k, c)).
Qed.

Lemma count_by_period_counts (times : list (option Z)) (k : Z) (c : nat) :
  (k, c) ∈ count_by_period times ->
  c = occurrences k (map (fmap Pd.floor_10min) times).
Proof.
  intros Hin. destruct (count_by_period_spec times) as ([Hnd _] & _ & _).
  rewrite <- (count_of_NoDup k c _ Hnd Hin).
  unfold count_by_period, Pd.value_counts, Pd.sort_index.
  rewrite (count_of_perm k _ _ (sort_by_perm _ _)).
  rewrite (count_of_perm k _ _ (sort_by_perm _ _)).
  unfold Pd.tally. by rewrite count_of_tally_from.
Qed.

Lemma floor_10min_eq (t k : Z) :
  (Pd.ten_minutes | k)%Z ->
  Pd.floor_10min t = k <-> (k <= t < k + Pd.ten_minutes)%Z.
Proof.
  intros [a ->]. split.
  - intros <-. apply floor_10min_bucket.
  - intros Hb. unfold Pd.floor_10min.
    assert (Hm : (t mod Pd.ten_minutes = t - a * Pd.ten_minutes)%Z).
    { symmetry. apply (Z.mod_unique_pos t Pd.ten_minutes a); unfold Pd.ten_minutes in *; lia. }
    lia.
Qed.

(** X14. The count of every bucket reported for the weak rows of the
    threshold classifier is the number of weak rows whose timestamp lies
    in the bucket, from its start included to its end excluded. *)
Theorem each_bucket_counts_its_rows (DateTime : list Z) (strong_spectra : list nat)
    (start stop : Z) (count : nat) :
  (start, stop, count) ∈ weak_buckets_1 DateTime strong_spectra ->
  count = length (List.filter (fun p => Z.leb start p.2 && Z.ltb p.2 stop)
                              (df_DateTime DateTime strong_spectra)).
Proof.
  unfold weak_buckets_1, intervals. intros Hin.
  apply list_elem_of_fmap in Hin as ([k c] & [= -> -> ->] & Hin). cbn [fst snd].
  destruct (count_by_period_spec
              (map (fun p : nat * Z => Some p.2) (df_DateTime DateTime strong_spectra)))
    as ([_ Hall] & _ & _).
  rewrite Forall_forall in Hall. destruct (Hall _ Hin) as [Hgrid _]. cbn [fst] in Hgrid.
  rewrite (count_by_period_counts _ _ _ Hin). unfold occurrences.
  generalize (df_DateTime DateTime strong_spectra).
  induction l as [|[i t] l IH]; [done|].
  cbn [map fmap option_fmap option_map List.filter snd].
  assert (Heq : Z.eqb (Pd.floor_10min t) k
                = (Z.leb k t && Z.ltb t (k + Pd.ten_minutes))%bool).
  { apply eq_true_iff_eq.
    rewrite Z.eqb_eq, andb_true_iff, Z.leb_le, Z.ltb_lt.
    rewrite (floor_10min_eq t k Hgrid). lia. }
  rewrite Heq. destruct (Z.leb k t && Z.ltb t (k + Pd.ten_minutes))%bool; simpl;
    by rewrite IH.
Qed.

Lemma each_bucket_counts_its_rows_witness :
  2%nat = length (List.filter (fun p : nat * Z => Z.leb 0 p.2 && Z.ltb p.2 600000000000)
                    (df_DateTime [60000000000; 240000000000; 660000000000]%Z [])).
Proof.
  apply each_bucket_counts_its_rows. vm_compute. apply list_elem_of_here.
Defined.

(** ** The timestamps of the second aggregation *)

Lemma aligned_take_rows (col : list Z) (idx : list nat) (j : nat) :
  Forall (fun i => (i < length col)%nat) idx ->
  aligned (take_rows col idx) j = if bool_decide (j ∈ idx) then col !! j else None.
Proof.
  unfold aligned, take_rows. induction 1 as [|i idx Hi _ IH].
  - by rewrite bool_decide_eq_false_2 by apply not_elem_of_nil.
  - destruct (lookup_lt_is_Some_2 col i Hi) as [x Hx].
    cbn [omap list_omap]. rewrite Hx. cbn [fmap option_fmap option_map List.find fst].
    destruct (Nat.eqb i j) eqn:E.
    + apply Nat.eqb_eq in E. subst j.
      rewrite bool_decide_eq_true_2 by apply list_elem_of_here. by rewrite Hx.
    + apply Nat.eqb_neq in E. rewrite IH.
      destruct (decide (j ∈ idx)) as [Hin|Hnin].
      * rewrite !bool_decide_eq_true_2; [done | by apply list_elem_of_further | done].
      * rewrite !bool_decide_eq_false_2; [done | | done].
        intros Hin. apply elem_of_cons in Hin as [->|Hin]; done.
Qed.

Lemma aligned_df_DateTime (DateTime : list Z) (strong_spectra : list nat) (j : nat) :
  aligned (df_DateTime DateTime strong_spectra) j
  = if bool_decide (j ∈ strong_spectra) then None else DateTime !! j.
Proof.
  unfold df_DateTime. rewrite aligned_take_rows.
  - destruct (decide (j ∈ strong_spectra)) as [Hin|Hnin].
    + rewrite bool_decide_eq_false_2, bool_decide_eq_true_2; [done | done |].
      rewrite index_not_isin_elem, elem_of_list_to_set. tauto.
    + rewrite (bool_decide_eq_false_2 (j ∈ strong_spectra)) by done.
      destruct (decide (j < length DateTime)%nat) as [Hlt|Hge].
      * rewrite bool_decide_eq_true_2; [done|].
        rewrite index_not_isin_elem, elem_of_list_to_set. tauto.
      * rewrite bool_decide_eq_false_2.
        -- symmetry. apply lookup_ge_None. lia.
        -- rewrite index_not_isin_elem. tauto.
  - apply Forall_forall. intros i Hi. by apply index_not_isin_elem in Hi as [? _].
Qed.

Lemma index_not_isin_length (n : nat) (s : gset nat) :
  (length (Pd.index_not_isin n s) <= n)%nat.
Proof.
  unfold Pd.index_not_isin.
  etransitivity; [apply filter_length_le|]. by rewrite length_seq.
Qed.

(** X15. In the aggregation that follows the outlier classifier, the
    row at position [j] of [measurement_weak] is given the timestamp of
    row [j] of the whole table when that row is weak for the threshold
    classifier, and no timestamp (NaT) when it is strong for it, whichever
    row of the table it is; so the bucket counts add up to the number of
    positions below the number of weak rows that lie outside
    [strong_spectra], which is at most the number of weak rows. *)
Theorem second_aggregation_reads_the_first_frame (DateTime : list Z)
    (strong_spectra strong_spectra_approach2 : list nat) :
  let K := length (Pd.index_not_isin (length DateTime)
                     (list_to_set strong_spectra_approach2)) in
  measurement_weak_DateTime DateTime strong_spectra strong_spectra_approach2
  = map (fun j => if bool_decide (j ∈ strong_spectra) then None else DateTime !! j)
        (seq 0 K) /\
  total_count (weak_buckets_2 DateTime strong_spectra strong_spectra_approach2)
  = length (List.filter (fun j => negb (bool_decide (j ∈ strong_spectra))) (seq 0 K)) /\
  (total_count (weak_buckets_2 DateTime strong_spectra strong_spectra_approach2) <= K)%nat.
Proof.
  intros K.
  assert (Htimes :
    measurement_weak_DateTime DateTime strong_spectra strong_spectra_approach2
    = map (fun j => if bool_decide (j ∈ strong_spectra) then None else DateTime !! j)
          (seq 0 K)).
  { unfold measurement_weak_DateTime. fold K. apply map_ext. intros j.
    apply aligned_df_DateTime. }
  assert (Hcount :
    total_count (weak_buckets_2 DateTime strong_spectra strong_spectra_approach2)
    = length (List.filter (fun j => negb (bool_decide (j ∈ strong_spectra))) (seq 0 K))).
  { unfold weak_buckets_2. rewrite total_count_intervals.
    destruct (count_by_period_spec
                (measurement_weak_DateTime DateTime strong_spectra
                   strong_spectra_approach2)) as (_ & _ & ->).
    rewrite Htimes.
    assert (HK : (K <= length DateTime)%nat) by apply index_not_isin_length.
    assert (Hgen : forall l, Forall (fun j => (j < length DateTime)%nat) l ->
      length (omap id (map (fun j => if bool_decide (j ∈ strong_spectra)
                                     then None else DateTime !! j) l))
      = length (List.filter (fun j => negb (bool_decide (j ∈ strong_spectra))) l)).
    { induction 1 as [|j l Hj _ IH]; [done|].
      cbn [map omap list_omap List.filter].
      destruct (bool_decide (j ∈ strong_spectra)); cbn [negb id]; [exact IH|].
      destruct (lookup_lt_is_Some_2 DateTime j Hj) as [t ->]. cbn [length].
      by rewrite IH. }
    apply Hgen, Forall_forall. intros j Hj. apply elem_of_seq in Hj. lia. }
  split; [done|]. split; [done|]. rewrite Hcount.
  etransitivity; [apply filter_length_le|]. by rewrite length_seq.
Qed.

(** ** The plotted series of approach 1 *)

Lemma take_rows_Forall2 {A} (col : list A) (idx : list nat) :
  Forall (fun i => (i < length col)%nat) idx ->
  Forall2 (fun i p => p.1 = i /\ col !! i = Some p.2) idx (take_rows col idx).
Proof.
  unfold take_rows. induction 1 as [|i idx Hi _ IH]; [constructor|].
  destruct (lookup_lt_is_Some_2 col i Hi) as [x Hx].
  cbn [omap list_omap]. rewrite Hx. cbn [fmap option_fmap option_map].
  constructor; [by split | exact IH].
Qed.

(** X16. When the series of mean intensities of approach 1 can be
    computed, it has one point per weak row, in index order: the point of
    a weak row carries the timestamp of that row and the mean of the
    cells of that row from column position 10 on. *)
Theorem weak_trend_follows_the_weak_rows (measurement_df : DataFrame)
    (DateTime : list Z) (strong_spectra : list nat) (trend : list (Z * option Q)) :
  weak_trend_1 measurement_df DateTime strong_spectra = Some trend ->
  Forall2 (fun i point =>
             DateTime !! i = Some point.1 /\
             exists row, values measurement_df !! i = Some row /\
                         Pd.row_mean (drop 10 row) = Some point.2)
          (Pd.index_not_isin (length DateTime) (list_to_set strong_spectra)) trend.
Proof.
  unfold weak_trend_1. rewrite df_DateTime_index.
  destruct (mean_intensity measurement_df
              (Pd.index_not_isin (length DateTime) (list_to_set strong_spectra)))
    as [means|] eqn:Hm; [|done].
  cbn [mbind option_bind]. intros [= <-].
  unfold mean_intensity in Hm. apply mapM_Some in Hm.
  assert (Hdf := take_rows_Forall2 DateTime
                   (Pd.index_not_isin (length DateTime) (list_to_set strong_spectra))).
  fold (df_DateTime DateTime strong_spectra) in Hdf.
  specialize (Hdf ltac:(apply Forall_forall; intros i Hi;
                        by apply index_not_isin_elem in Hi as [? _])).
  revert means Hm.
  induction Hdf as [|i p idx df [Hp1 Hp2] _ IH]; intros means Hm.
  - inversion Hm; subst. constructor.
  - inversion Hm as [|? m ? ms Hrow Hrest]; subst. cbn [map zip zip_with snd].
    constructor; [|by apply IH]. cbn [fst snd]. split; [done|].
    destruct (values measurement_df !! p.1) as [row|]; [|done].
    exists row. split; [done | exact Hrow].
Qed.

Lemma weak_trend_follows_the_weak_rows_witness :
  Forall2 (fun i point =>
             [60000000000; 240000000000]%Z !! i = Some point.1 /\
             exists row, values (dataframe_of (ten_headers [100; 200] [[9; 9]; [1; 3]])) !! i
                         = Some row /\
                         Pd.row_mean (drop 10 row) = Some point.2)
          (Pd.index_not_isin 2 (list_to_set [0%nat]))
          [(240000000000%Z, Some (4 # 2))].
Proof.
  apply (weak_trend_follows_the_weak_rows
           (dataframe_of (ten_headers [100; 200] [[9; 9]; [1; 3]]))
           [60000000000; 240000000000]%Z [0%nat]).
  vm_compute. reflexivity.
Defined.

(** ** When the threshold classifier fails *)

Lemma argmax_from_bound (l : list Q) (i best : nat) (bestv : Q) :
  Np.argmax_from i best bestv l = best \/
  (i <= Np.argmax_from i best bestv l < i + length l)%nat.
Proof.
  revert i best bestv. induction l as [|x l IH]; intros i best bestv;
    cbn [Np.argmax_from]; [by left|].
  destruct (Np.Qltb bestv x).
  - right. destruct (IH (S i) i x) as [->|H]; simpl; lia.
  - destruct (IH (S i) best bestv) as [->|H]; [by left | right; simpl; lia].
Qed.

Lemma argmax_lt (l : list Q) (n : nat) :
  (length l <= n)%nat -> (0 < n)%nat -> (Np.argmax l < n)%nat.
Proof.
  intros Hl Hn. destruct l as [|x l]; cbn [Np.argmax]; [done|].
  destruct (argmax_from_bound l 1 0 x) as [->|H]; simpl in *; lia.
Qed.

Lemma variance12_length (counts centers : list Q) :
  (length (Skimage.variance12 counts centers) <= length counts)%nat.
Proof.
  unfold Skimage.variance12. cbv zeta. rewrite length_zip_with.
  etransitivity; [apply Nat.le_min_l|].
  rewrite length_zip_with.
  etransitivity; [apply Nat.le_min_l|].
  assert (Hc : forall acc l, length (Np.cumsum_from acc l) = length l).
  { intros acc l. revert acc. induction l as [|y l IH]; intros acc; simpl; [done|].
    by rewrite IH. }
  assert (Hr : forall l : list Q, (length (removelast l) <= length l)%nat).
  { induction l as [|y [|z l] IH]; simpl in *; lia. }
  etransitivity; [apply Hr|]. unfold Np.cumsum. by rewrite Hc.
Qed.

Lemma threshold_otsu_total (image : list Q) :
  image <> [] -> is_Some (Skimage.threshold_otsu image).
Proof.
  intros Hne. destruct image as [|x image]; [done|].
  unfold Skimage.threshold_otsu. destruct (forallb _ _); [by eexists|].
  cbn [Np.min Np.max mbind option_bind]. apply lookup_lt_is_Some_2.
  unfold Skimage.bin_centers. rewrite length_map, length_seq.
  apply argmax_lt; [|unfold Skimage.nbins; lia].
  etransitivity; [apply variance12_length|].
  unfold Np.histogram_counts. by rewrite length_map, length_seq.
Qed.

(** X17. Whatever the relax factor, the threshold classifier fails in two
    cases only: when the intensity matrix has no row (the first pixel of
    an empty array is indexed) and when some row is empty (the maximum of
    an empty row is taken). On any other matrix it returns. *)
Theorem threshold_classifier_fails_on_empty_input (r : Q) (a : list (list Q)) :
  threshold_classifier r a = None <-> a = [] \/ Exists (fun row => row = []) a.
Proof.
  unfold threshold_classifier. split.
  - intros H. destruct (decide (a = [])) as [->|Hne]; [by left|]. right.
    destruct (decide (Exists (fun row => row = []) a)) as [He|Hn]; [done|].
    exfalso. apply not_Exists_Forall in Hn; [|intros row; apply _].
    destruct (max_axis1_total a) as [peaks Hp].
    { eapply Forall_impl; [exact Hn|]. by intros row Hrow. }
    rewrite Hp in H. cbn [mbind option_bind] in H.
    destruct (threshold_otsu_total peaks) as [t Ht].
    { intros ->. apply max_axis1_length in Hp. destruct a; done. }
    by rewrite Ht in H.
  - intros [->|He]; [done|].
    destruct (Np.max_axis1 a) as [peaks|] eqn:Hp; [|done]. exfalso.
    apply max_axis1_peaks in Hp. apply Exists_exists in He as (row & Hrow & ->).
    apply list_elem_of_lookup in Hrow as [i Hi].
    destruct (Forall2_lookup_l _ _ _ _ _ Hp Hi) as (p & _ & [Hin _]).
    by apply elem_of_nil in Hin.
Qed.

(** ** Columns without variation *)

Lemma sort_values_elem (l : list Q) (y : Q) : y ∈ Pd.sort_values l <-> y ∈ l.
Proof.
  induction l as [|x l IH]; simpl; [done|].
  rewrite insert_sorted_elem, elem_of_cons, IH. done.
Qed.

Lemma quantile_constant (col : list Q) (c q v : Q) :
  Forall (fun x => x == c) col -> 0 <= q -> q <= 1 ->
  Pd.quantile col q = Some v -> v == c.
Proof.
  intros Hall Hq0 Hq1. rewrite quantile_unfold.
  pose proof (sort_values_length col) as Hlen.
  destruct (Pd.sort_values col) as [|x0 srt] eqn:E; [done|].
  rewrite <- E in *. intros Hv. apply (inj Some) in Hv. rewrite <- Hv.
  assert (Hpos : (1 <= length col)%nat) by (rewrite <- Hlen, E; simpl; lia).
  assert (Hnth : forall i, (i < length col)%nat -> nth i (Pd.sort_values col) x0 == c).
  { intros i Hi. rewrite Forall_forall in Hall. apply Hall, sort_values_elem.
    apply list_elem_of_In, nth_In. lia. }
  unfold interpolate. rewrite Hlen.
  set (h := inject_Z (Z.of_nat (length col) - 1) * q).
  assert (Hm : 0 <= inject_Z (Z.of_nat (length col) - 1)).
  { change 0 with (inject_Z 0). rewrite <- Zle_Qle. lia. }
  assert (Hfl : (0 <= Qfloor h <= Z.of_nat (length col) - 1)%Z).
  { split.
    - change 0%Z with (Qfloor 0). apply Qfloor_resp_le. unfold h. nra.
    - rewrite <- (Qfloor_Z (Z.of_nat (length col) - 1)). apply Qfloor_resp_le.
      unfold h. nra. }
  rewrite (Hnth (Z.to_nat (Qfloor h))) by lia.
  rewrite (Hnth (Nat.min (S (Z.to_nat (Qfloor h))) (length col - 1))) by lia.
  ring.
Qed.

Lemma constant_column_has_no_outlier (k_lo k_hi : Q) (col : list Q) (c : Q) :
  Forall (fun x => x == c) col -> has_outlier k_lo k_hi col = false.
Proof.
  intros Hall. unfold has_outlier, bounds.
  destruct (Pd.quantile col (1 # 4)) as [q1|] eqn:H1; [|done].
  destruct (Pd.quantile col (3 # 4)) as [q3|] eqn:H3; [|done].
  cbn [mbind option_bind].
  apply (quantile_constant _ c) in H1; [|done|lra|lra].
  apply (quantile_constant _ c) in H3; [|done|lra|lra].
  apply not_true_iff_false. rewrite existsb_exists. intros (x & Hx & Hout).
  rewrite Forall_forall in Hall. specialize (Hall x (proj2 (list_elem_of_In _ _) Hx)).
  rewrite orb_true_iff, !Qltb_lt, H1, H3, Hall in Hout.
  assert (Hz : c - c == 0) by ring. rewrite Hz in Hout.
  destruct Hout as [Hout|Hout]; nra.
Qed.

Lemma outlier_loop_nothing (k_lo k_hi : Q) (df : DataFrame) (waves acc : list nat) :
  Forall (fun w => exists col c, Pd.float_column w df = Some col /\
                                 Forall (fun x => x == c) col) waves ->
  outlier_loop k_lo k_hi df waves acc = Some acc.
Proof.
  intros H. revert acc. induction H as [|w waves (col & c & Hcol & Hc) _ IH]; intros acc;
    cbn [outlier_loop]; [done|].
  rewrite Hcol. cbn [mbind option_bind].
  by rewrite (constant_column_has_no_outlier _ _ _ _ Hc).
Qed.

(** X18. Whatever the multipliers, a wavenumber whose intensity is the
    same in every row never contributes: on a table whose columns from
    position 10 on are each constant, no row is strong and all are weak. *)
Theorem constant_columns_flag_nothing (k_lo k_hi : Q) (df : DataFrame) :
  Forall (fun w => exists col c, Pd.float_column w df = Some col /\
                                 Forall (fun x => x == c) col) (wave_num df) ->
  outlier_classifier k_lo k_hi df = Some ([], seq 0 (Pd.len df)).
Proof.
  intros H. unfold outlier_classifier, strong_spectra_approach2, outlier.
  rewrite (outlier_loop_nothing _ _ _ _ [] H). cbn [mbind option_bind strong_loop].
  f_equal. f_equal.
  - apply filter_none. intros i _. apply bool_decide_eq_false. set_solver.
  - apply filter_all. intros i _. apply negb_true_iff, bool_decide_eq_false. set_solver.
Qed.

Lemma constant_columns_flag_nothing_witness :
  outlier_classifier 5 4 (dataframe_of (ten_headers [100; 200] [[3; 7]; [3; 7]; [3; 7]]))
  = Some ([], [0; 1; 2]%nat).
Proof.
  apply (constant_columns_flag_nothing 5 4
           (dataframe_of (ten_headers [100; 200] [[3; 7]; [3; 7]; [3; 7]]))).
  repeat constructor.
  - exists [3; 3; 3], 3. split; [reflexivity | repeat constructor].
  - exists [7; 7; 7], 7. split; [reflexivity | repeat constructor].
Defined.
